(** * The query builder of vuex-orm-next ([src/query/Query.ts])

    A shallow embedding of the [Query] class together with the properties
    of filtering, pagination, retrieval by id, saving, destroying,
    reviving and eager loading.

    The host language is modelled as far as the class relies on it:
    plain values with the two equalities of JavaScript, objects as
    association lists kept in property enumeration order, [slice],
    exceptions as a result type. *)

From Stdlib Require Import String Ascii List ZArith NArith Bool Lia.
From Stdlib Require Import DecimalString.
Import ListNotations.

Set Warnings "-register-all".

Local Open Scope string_scope.
Local Open Scope list_scope.
Local Open Scope Z_scope.

(* ================================================================== *)
(** * Values of the host language *)
(* ================================================================== *)

(** Field values, ids and normalized schemas.  Numbers are the integers
    and NaN (the only number on which [===] and [includes] disagree).
    Arrays and objects are carried by content; as operands of an
    equality they are distinct references. *)
Inductive Value : Type :=
| VUndefined
| VNull
| VBool (b : bool)
| VNum (n : Z)
| VNaN
| VStr (s : string)
| VArr (items : list Value)
| VObj (props : list (string * Value)).

(** [a === b]. *)
Definition strictEq (a b : Value) : bool :=
  match a, b with
  | VUndefined, VUndefined => true
  | VNull, VNull => true
  | VBool x, VBool y => Bool.eqb x y
  | VNum x, VNum y => Z.eqb x y
  | VStr x, VStr y => String.eqb x y
  | _, _ => false
  end.

(** SameValueZero, the comparison of [Array.prototype.includes]. *)
Definition sameValueZero (a b : Value) : bool :=
  match a, b with
  | VNaN, VNaN => true
  | _, _ => strictEq a b
  end.

(** [items.includes(x)]. *)
Definition includes (items : list Value) (x : Value) : bool :=
  existsb (fun y => sameValueZero y x) items.

(** [!v] is true on the falsy values. *)
Definition falsy (v : Value) : bool :=
  match v with
  | VUndefined | VNull | VNaN => true
  | VBool b => negb b
  | VNum n => Z.eqb n 0
  | VStr s => String.eqb s ""
  | VArr _ | VObj _ => false
  end.

(** [Array.isArray(v)]. *)
Definition isArray (v : Value) : bool :=
  match v with VArr _ => true | _ => false end.

(** [String(n)] for an integer. *)
Definition decimal (n : N) : string :=
  NilZero.string_of_uint (N.to_uint n).

Definition decimalZ (n : Z) : string :=
  match n with
  | Z0 => "0"
  | Zpos p => decimal (Npos p)
  | Zneg p => ("-" ++ decimal (Npos p))%string
  end.

(** [String(v)]; an array is joined with commas, [null] and [undefined]
    elements giving the empty string. *)
Fixpoint toString (v : Value) : string :=
  match v with
  | VUndefined => "undefined"
  | VNull => "null"
  | VBool true => "true"
  | VBool false => "false"
  | VNum n => decimalZ n
  | VNaN => "NaN"
  | VStr s => s
  | VArr items =>
      (fix join (xs : list Value) : string :=
         match xs with
         | [] => ""
         | x :: rest =>
             let here :=
               match x with
               | VUndefined | VNull => ""
               | _ => toString x
               end in
             match rest with
             | [] => here
             | _ => (here ++ "," ++ join rest)%string
             end
         end) items
  | VObj _ => "[object Object]"
  end.

(** [xs.indexOf(x)] on an array of booleans. *)
Fixpoint indexOfFrom (i : Z) (xs : list bool) (x : bool) : Z :=
  match xs with
  | [] => -1
  | y :: rest => if Bool.eqb y x then i else indexOfFrom (i + 1) rest x
  end.

Definition indexOf (xs : list bool) (x : bool) : Z := indexOfFrom 0 xs x.

(** [xs.slice(start, end)]; [end_ = None] is the one-argument form. *)
Definition slice {A : Type} (xs : list A) (start : Z) (end_ : option Z) : list A :=
  let len := Z.of_nat (length xs) in
  let k := if start <? 0 then Z.max (len + start) 0 else Z.min start len in
  let final :=
    match end_ with
    | None => len
    | Some e => if e <? 0 then Z.max (len + e) 0 else Z.min e len
    end in
  firstn (Z.to_nat (Z.max (final - k) 0)) (skipn (Z.to_nat k) xs).

(* ================================================================== *)
(** * Objects *)
(* ================================================================== *)

(** An object used as a map: its own properties in enumeration order,
    which is the order [for .. in] visits them: array-index keys in
    ascending numeric order, then the other keys in insertion order. *)
Definition JsObj (A : Type) : Type := list (string * A).

Definition digitOf (c : ascii) : option N :=
  let n := N_of_ascii c in
  if ((48 <=? n) && (n <=? 57))%N then Some (n - 48)%N else None.

Fixpoint digitsValue (acc : N) (s : string) : option N :=
  match s with
  | EmptyString => Some acc
  | String c rest =>
      match digitOf c with
      | Some d => digitsValue (10 * acc + d)%N rest
      | None => None
      end
  end.

(** A key is an array index when it is the canonical decimal form of an
    integer below 2^32 - 1. *)
Definition arrayIndex (k : string) : option N :=
  match digitsValue 0%N k with
  | Some n =>
      if ((n <? 4294967295)%N && String.eqb (decimal n) k)%bool
      then Some n else None
  | None => None
  end.

(** [o[k]]; [None] is [undefined]. *)
Fixpoint objGet {A : Type} (k : string) (o : JsObj A) : option A :=
  match o with
  | [] => None
  | (k', v) :: rest => if String.eqb k k' then Some v else objGet k rest
  end.

Definition objHas {A : Type} (k : string) (o : JsObj A) : bool :=
  match objGet k o with Some _ => true | None => false end.

(** Assignment to a property that exists keeps its place. *)
Fixpoint objReplace {A : Type} (k : string) (v : A) (o : JsObj A) : JsObj A :=
  match o with
  | [] => []
  | (k', v') :: rest =>
      if String.eqb k k' then (k', v) :: rest
      else (k', v') :: objReplace k v rest
  end.

(** A new array-index key goes before the first key that is not an
    array index or is a larger one. *)
Fixpoint objInsertIndex {A : Type} (n : N) (k : string) (v : A) (o : JsObj A)
  : JsObj A :=
  match o with
  | [] => [(k, v)]
  | (k', v') :: rest =>
      match arrayIndex k' with
      | Some n' =>
          if (n' <? n)%N then (k', v') :: objInsertIndex n k v rest
          else (k, v) :: (k', v') :: rest
      | None => (k, v) :: (k', v') :: rest
      end
  end.

(** [o[k] = v]. *)
Definition objSet {A : Type} (k : string) (v : A) (o : JsObj A) : JsObj A :=
  if objHas k o then objReplace k v o
  else
    match arrayIndex k with
    | Some n => objInsertIndex n k v o
    | None => o ++ [(k, v)]
    end.

(** [delete o[k]]. *)
Fixpoint objDelete {A : Type} (k : string) (o : JsObj A) : JsObj A :=
  match o with
  | [] => []
  | (k', v') :: rest =>
      if String.eqb k k' then rest else (k', v') :: objDelete k rest
  end.

Definition objKeys {A : Type} (o : JsObj A) : list string := map fst o.

(** [for (const k in o) { s = body(k, o[k], s) }]: the keys are visited
    in enumeration order and each value is read through the key. *)
Definition forIn {A S : Type} (o : JsObj A) (body : string -> A -> S -> S)
  (s : S) : S :=
  fold_left
    (fun s k =>
       match objGet k o with
       | Some v => body k v s
       | None => s
       end)
    (objKeys o) s.

(** [{ ...a, ...b }]. *)
Definition spread {A : Type} (a b : JsObj A) : JsObj A :=
  forIn b (fun k v o => objSet k v o) (forIn a (fun k v o => objSet k v o) []).

(** The object literal with the given properties, in source order. *)
Definition objOf {A : Type} (props : list (string * A)) : JsObj A :=
  forIn props (fun k v o => objSet k v o) [].

(* ================================================================== *)
(** * Exceptions *)
(* ================================================================== *)

(** A call returns or throws; the error carries the message lines that
    were handed to [assert]. *)
Inductive Result (A : Type) : Type :=
| Ok (a : A)
| Throw (message : list string).

Arguments Ok {A} a.
Arguments Throw {A} message.

Definition bind {A B : Type} (r : Result A) (k : A -> Result B) : Result B :=
  match r with
  | Ok a => k a
  | Throw message => Throw message
  end.

Notation "x <- r ;; k" := (bind r (fun x => k))
  (at level 61, r at next level, right associativity).

(* ================================================================== *)
(** * Data model *)
(* ================================================================== *)

(** A record of the store, and a normalized schema element.
    ([Element] of [data/Data].) *)
Definition Element : Type := JsObj Value.

(** The records of one entity, by index id.  ([Elements].) *)
Definition Elements : Type := JsObj Element.

(** A model instance: the attributes it was hydrated with and the
    relation properties that reviving or eager loading has assigned. *)
Inductive Model : Type :=
| mkModel (attributes : Element) (relations : JsObj Related)
with Related : Type :=
| RNull
| ROne (one : Model)
| RMany (many : list Model).

Definition attributes (m : Model) : Element :=
  match m with mkModel a _ => a end.

Definition relations (m : Model) : JsObj Related :=
  match m with mkModel _ r => r end.

(** [Item<M>] and [Collection<M>]. *)
Definition Item : Type := option Model.
Definition Collection : Type := list Model.

(** What an overloaded method returns: an item for one id, a collection
    for an array of ids. *)
Inductive ItemOrCollection : Type :=
| AnItem (item : Item)
| ACollection (collection : Collection).

(** [model[key]], read on a hydrated model: an attribute, else
    [undefined]. *)
Definition getProp (m : Model) (key : string) : Value :=
  match objGet key (attributes m) with
  | Some v => v
  | None => VUndefined
  end.

(** [model[key] = related]. *)
Definition setRelation (m : Model) (key : string) (r : Related) : Model :=
  mkModel (attributes m) (objSet key r (relations m)).

(** [model.$getAttributes()]. *)
Definition getAttributes (m : Model) : Element := attributes m.

(** ** Query options ([query/Options]) *)

Inductive Connector : Type := And | Or.

(** [WherePrimaryClosure | string]. *)
Inductive FieldSlot : Type :=
| FieldName (name : string)
| FieldClosure (closure : Model -> bool).

(** [WhereSecondaryClosure | any]. *)
Inductive ValueSlot : Type :=
| Val (v : Value)
| ValClosure (closure : Value -> bool).

Record Where : Type := mkWhere {
  field : FieldSlot;
  value : ValueSlot;
  boolean : Connector
}.

Inductive OrderBy : Type :=
| OrderField (name : string)
| OrderSelector (selector : Model -> Value).

Inductive OrderDirection : Type := Asc | Desc.

Record Order : Type := mkOrder {
  orderField : OrderBy;
  direction : OrderDirection
}.

(** An [EagerLoadConstraint] is a callback that receives the sub-query
    and calls chain methods on it.  The callbacks are represented by
    what they do: nothing (the default [() => {}]), the closure that
    [withAllRecursive] builds around its [depth], or a caller's sequence
    of chain-method calls. *)
Inductive Constraint : Type :=
| NoConstraint
| RecursiveConstraint (depth : Z)
| Callback (calls : list ChainCall)
with ChainCall : Type :=
| CallWhere (f : FieldSlot) (v : ValueSlot)
| CallWhereIn (f : string) (values : list Value)
| CallWhereId (ids : Value)
| CallOrWhere (f : FieldSlot) (v : ValueSlot)
| CallOrderBy (f : OrderBy) (d : OrderDirection)
| CallLimit (n : Z)
| CallOffset (n : Z)
| CallWith (name : string) (callback : Constraint)
| CallWithAll (callback : Constraint)
| CallWithAllRecursive (depth : Z).

(** [EagerLoad]: relation name to constraint. *)
Definition EagerLoad : Type := JsObj Constraint.

(** ** Collaborators *)

(** Modelled from the spec: the [Relation] interface of
    [model/attributes/relations/Relation], which is not part of the
    source at hand.  A relation names its related entity
    ([getRelated]), adds its own constraints to the sub-query given the
    parent models ([addEagerConstraints], as the chain-method calls it
    makes), and matches the eager results back by assigning each
    parent's relation attribute ([match]; [relate] picks the related
    models of one parent). *)
Record Relation : Type := mkRelation {
  related : string;
  addEagerConstraints : Collection -> list ChainCall;
  relate : Model -> Collection -> Related
}.

(** A field of a model is a relation or a plain attribute. *)
Inductive Attribute : Type :=
| Attr (default : Value)
| Rel (relation : Relation).

(** [string | string[]], the result of [$getKeyName()]. *)
Inductive KeyName : Type :=
| KeySingle (name : string)
| KeyComposite (names : list string).

(** Modelled from the spec: the model metadata of [model/Model], which
    is not part of the source at hand: [$entity()], [$fields()],
    [$getKeyName()], the attributes that [$newInstance(record,
    { relations: false })] gives the instance, and [$getIndexId]. *)
Record ModelType : Type := mkModelType {
  entity : string;
  fields : JsObj Attribute;
  getKeyName : KeyName;
  newInstance : Element -> Element;
  getIndexId : Element -> string
}.

(** [$hasCompositeKey()]. *)
Definition hasCompositeKey (m : ModelType) : bool :=
  match getKeyName m with
  | KeySingle _ => false
  | KeyComposite _ => true
  end.

(** The property key that a key name denotes when it indexes a model
    ([model[where.field]]): an array of names is joined with commas. *)
Definition propertyKey (k : KeyName) : string :=
  match k with
  | KeySingle name => name
  | KeyComposite names => String.concat "," names
  end.

(** [$getRelation(name)] throws unless the field is a relation. *)
Definition getRelationOf (m : ModelType) (name : string) : Result Relation :=
  match objGet name (fields m) with
  | Some (Rel r) => Ok r
  | _ => Throw ["Relationship [" ++ name ++ "] on model [" ++ entity m
                ++ "] not found."]%string
  end.

(** Modelled from the spec: the [Database] of [database/Database], which
    is not part of the source at hand: the registry of models and the
    store state, one record map per entity. *)
Record Database : Type := mkDatabase {
  getModel : string -> ModelType;
  state : JsObj Elements
}.

(** Modelled from the spec: the [Connection] of
    [connection/Connection], which is not part of the source at hand:
    [get], [find], [save] (a merging batched write) and [destroy] over
    one entity's record map. *)
Definition connGet (db : Database) (m : ModelType) : Elements :=
  match objGet (entity m) (state db) with
  | Some data => data
  | None => []
  end.

Definition connFind (db : Database) (m : ModelType) (id : string)
  : option Element :=
  objGet id (connGet db m).

Definition connCommit (db : Database) (m : ModelType) (data : Elements)
  : Database :=
  mkDatabase (getModel db) (objSet (entity m) data (state db)).

Definition connSave (db : Database) (m : ModelType) (records : Elements)
  : Database :=
  connCommit db m (spread (connGet db m) records).

Definition connDestroy (db : Database) (m : ModelType) (ids : list string)
  : Database :=
  connCommit db m (fold_left (fun data id => objDelete id data) ids
                             (connGet db m)).

(** ** Helpers of [support/Utils] *)

(** Modelled from the spec: [isEmpty] of [support/Utils], which is not
    part of the source at hand. *)
Definition isEmpty {A : Type} (xs : list A) : bool :=
  match xs with [] => true | _ => false end.

(** Modelled from the spec: [groupBy] of [support/Utils], which is not
    part of the source at hand: the elements are partitioned by their
    key, each group in the order of the collection. *)
Definition groupBy {A : Type} (collection : list A) (iteratee : A -> string)
  : JsObj (list A) :=
  fold_left
    (fun records record =>
       let key := iteratee record in
       match objGet key records with
       | None => objSet key [record] records
       | Some group => objSet key (group ++ [record]) records
       end)
    collection [].

(** Modelled from the spec: [assert] of [support/Utils], which is not
    part of the source at hand: it raises the message unless the
    condition holds. *)
Definition assert (condition : bool) (message : list string) : Result unit :=
  if condition then Ok tt else Throw message.

(* ================================================================== *)
(** * The Query class *)
(* ================================================================== *)

(** The directive state of a query instance.  Its [database] field is a
    reference to the shared database; the database is therefore passed
    next to the query, and returned by the methods that write to it. *)
Record Query : Type := mkQuery {
  model : ModelType;
  wheres : list Where;
  orders : list Order;
  take : option Z;
  skip : Z;
  eagerLoad : EagerLoad
}.

(** [new Query(database, model)]. *)
Definition newQueryOf (m : ModelType) : Query :=
  mkQuery m [] [] None 0 [].

Definition newQuery (db : Database) (name : string) : Query :=
  newQueryOf (getModel db name).

Definition newQueryForRelation (db : Database) (relation : Relation) : Query :=
  newQueryOf (getModel db (related relation)).

(** ** Chain methods *)

Definition pushWhere (q : Query) (w : Where) : Query :=
  mkQuery (model q) (wheres q ++ [w]) (orders q) (take q) (skip q)
          (eagerLoad q).

Definition where_ (q : Query) (f : FieldSlot) (v : ValueSlot) : Query :=
  pushWhere q (mkWhere f v And).

Definition whereIn (q : Query) (f : string) (values : list Value) : Query :=
  pushWhere q (mkWhere (FieldName f) (Val (VArr values)) And).

Definition whereId (q : Query) (ids : Value) : Query :=
  where_ q (FieldName (propertyKey (getKeyName (model q)))) (Val ids).

Definition orWhere (q : Query) (f : FieldSlot) (v : ValueSlot) : Query :=
  pushWhere q (mkWhere f v Or).

Definition orderBy_ (q : Query) (f : OrderBy) (d : OrderDirection) : Query :=
  mkQuery (model q) (wheres q) (orders q ++ [mkOrder f d]) (take q) (skip q)
          (eagerLoad q).

Definition limit (q : Query) (n : Z) : Query :=
  mkQuery (model q) (wheres q) (orders q) (Some n) (skip q) (eagerLoad q).

Definition offset (q : Query) (n : Z) : Query :=
  mkQuery (model q) (wheres q) (orders q) (take q) n (eagerLoad q).

Definition with_ (q : Query) (name : string) (callback : Constraint) : Query :=
  mkQuery (model q) (wheres q) (orders q) (take q) (skip q)
          (objSet name callback (eagerLoad q)).

Definition withAll (q : Query) (callback : Constraint) : Query :=
  forIn (fields (model q))
        (fun name attr q =>
           match attr with
           | Rel _ => with_ q name callback
           | Attr _ => q
           end)
        q.

(** The callback is the closure
    [(query) => { depth > 0 && query.withAllRecursive(depth - 1) }]. *)
Definition withAllRecursive (q : Query) (depth : Z) : Query :=
  withAll q (RecursiveConstraint depth).

(** The default [depth = 3]. *)
Definition withAllRecursiveDefault (q : Query) : Query :=
  withAllRecursive q 3.

(** One chain-method call of a callback, on the sub-query. *)
Definition applyCall (q : Query) (c : ChainCall) : Query :=
  match c with
  | CallWhere f v => where_ q f v
  | CallWhereIn f values => whereIn q f values
  | CallWhereId ids => whereId q ids
  | CallOrWhere f v => orWhere q f v
  | CallOrderBy f d => orderBy_ q f d
  | CallLimit n => limit q n
  | CallOffset n => offset q n
  | CallWith name callback => with_ q name callback
  | CallWithAll callback => withAll q callback
  | CallWithAllRecursive depth => withAllRecursive q depth
  end.

(** [constraints(query)]. *)
Definition applyConstraint (c : Constraint) (query : Query) : Query :=
  match c with
  | NoConstraint => query
  | RecursiveConstraint depth =>
      if depth >? 0 then withAllRecursive query (depth - 1) else query
  | Callback calls => fold_left applyCall calls query
  end.

(** ** Hydration *)

Definition hydrate (m : ModelType) (record : Element) : Model :=
  mkModel (newInstance m record) [].

(** ** Where clauses *)

Definition connectorKey (c : Connector) : string :=
  match c with And => "and" | Or => "or" end.

Definition whereComparator (m : Model) (w : Where) : bool :=
  match field w with
  | FieldClosure f => f m
  | FieldName name =>
      match value w with
      | Val (VArr items) => includes items (getProp m name)
      | ValClosure g => g (getProp m name)
      | Val v => strictEq (getProp m name) v
      end
  end.

Definition getWhereComparator (q : Query) : Model -> bool :=
  let groups := groupBy (wheres q) (fun w => connectorKey (boolean w)) in
  let and_ := objGet "and" groups in
  let or_ := objGet "or" groups in
  fun m =>
    let results := [] in
    let results :=
      match and_ with
      | Some group => results ++ [forallb (whereComparator m) group]
      | None => results
      end in
    let results :=
      match or_ with
      | Some group => results ++ [existsb (whereComparator m) group]
      | None => results
      end in
    negb (indexOf results true =? -1).

Definition filterWhere (q : Query) (models : Collection) : Collection :=
  if isEmpty (wheres q) then models
  else
    let comparator := getWhereComparator q in
    filter (fun m => comparator m) models.

Definition filterLimit (q : Query) (models : Collection) : Collection :=
  match take q with
  | Some n => slice models (skip q) (Some (skip q + n))
  | None => slice models (skip q) None
  end.

(** ** Retrieval *)

Definition data (db : Database) (q : Query) : Elements :=
  connGet db (model q).

Definition all (db : Database) (q : Query) : Collection :=
  let records := connGet db (model q) in
  forIn records
        (fun id record collection => collection ++ [hydrate (model q) record])
        [].

Section Retrieval.

(** [orderBy] of [support/Utils] and [getEager] of the relation
    classes are not part of the source at hand; the retrieval methods
    are defined over any. *)
Variable orderBy :
  Collection -> list OrderBy -> list OrderDirection -> Collection.
Variable getEager : Database -> Relation -> Query -> Result Collection.

Definition filterOrder (q : Query) (models : Collection) : Collection :=
  if (Z.of_nat (length (orders q)) =? 0) then models
  else
    let fields := map orderField (orders q) in
    let directions := map direction (orders q) in
    orderBy models fields directions.

Definition select (db : Database) (q : Query) : Collection :=
  let models := all db q in
  let models := filterWhere q models in
  let models := filterOrder q models in
  let models := filterLimit q models in
  models.

(** [relation.match(name, models, results)]. *)
Definition matchRelation (relation : Relation) (name : string)
  (models results : Collection) : Collection :=
  map (fun m => setRelation m name (relate relation m results)) models.

Definition eagerLoadRelation (db : Database) (q : Query)
  (models : Collection) (name : string) (constraints : Constraint)
  : Result Collection :=
  relation <- getRelationOf (model q) name ;;
  let query := newQueryForRelation db relation in
  let query := fold_left applyCall (addEagerConstraints relation models)
                         query in
  let query := applyConstraint constraints query in
  results <- getEager db relation query ;;
  Ok (matchRelation relation name models results).

Definition eagerLoadRelations (db : Database) (q : Query)
  (models : Collection) : Result Collection :=
  forIn (eagerLoad q)
        (fun name constraints acc =>
           models <- acc ;;
           eagerLoadRelation db q models name constraints)
        (Ok models).

Definition load (db : Database) (q : Query) (models : Collection)
  : Result Collection :=
  eagerLoadRelations db q models.

Definition get (db : Database) (q : Query) : Result Collection :=
  let models := select db q in
  if negb (isEmpty models) then eagerLoadRelations db q models
  else Ok models.

(** [this.limit(1).get()[0] ?? null]; the query keeps the limit. *)
Definition first (db : Database) (q : Query) : Query * Result Item :=
  let q := limit q 1 in
  (q, models <- get db q ;; Ok (hd_error models)).

Definition findIn (db : Database) (q : Query) (ids : list Value)
  : Query * Result Collection :=
  let q := whereId q (VArr ids) in
  (q, get db q).

Definition find (db : Database) (q : Query) (ids : Value)
  : Query * Result ItemOrCollection :=
  match ids with
  | VArr items =>
      let '(q, r) := findIn db q items in
      (q, models <- r ;; Ok (ACollection models))
  | _ =>
      let '(q, r) := first db (whereId q ids) in
      (q, item <- r ;; Ok (AnItem item))
  end.

(** ** Destroying *)

Definition getIndexIdsFromCollection (q : Query) (models : Collection)
  : list string :=
  map (fun m => getIndexId (model q) (attributes m)) models.

Definition destroyOne (db : Database) (q : Query) (id : Value)
  : Database * Query * Result ItemOrCollection :=
  let '(q, r) := find db q id in
  match r with
  | Throw message => (db, q, Throw message)
  | Ok (AnItem None) => (db, q, Ok (AnItem None))
  | Ok (AnItem (Some found)) =>
      (connDestroy db (model q) [getIndexId (model q) (attributes found)],
       q, Ok (AnItem (Some found)))
  | Ok (ACollection _) => (db, q, Throw ["TypeError"])
  end.

Definition destroyMany (db : Database) (q : Query) (ids : Value)
  : Database * Query * Result ItemOrCollection :=
  let '(q, r) := find db q ids in
  match r with
  | Throw message => (db, q, Throw message)
  | Ok (ACollection models) =>
      if isEmpty models then (db, q, Ok (ACollection []))
      else (connDestroy db (model q) (getIndexIdsFromCollection q models),
            q, Ok (ACollection models))
  | Ok (AnItem _) => (db, q, Throw ["TypeError"])
  end.

Definition destroyMessage : list string :=
  ["You can't use the `destroy` method on a model with a composite key.";
   "Please use `delete` method instead."].

Definition destroy (db : Database) (q : Query) (ids : Value)
  : Database * Query * Result ItemOrCollection :=
  match assert (negb (hasCompositeKey (model q))) destroyMessage with
  | Throw message => (db, q, Throw message)
  | Ok _ => if isArray ids then destroyMany db q ids else destroyOne db q ids
  end.

End Retrieval.

(** ** Saving *)

Definition saveElements (db : Database) (q : Query) (elements : Elements)
  : Database :=
  let currentData := data db q in
  let newData :=
    forIn elements
          (fun id record newData =>
             let existing := objGet id currentData in
             objSet id
                    match existing with
                    | Some existing =>
                        getAttributes
                          (hydrate (model q) (spread existing record))
                    | None => getAttributes (hydrate (model q) record)
                    end
                    newData)
          [] in
  connSave db (model q) newData.

(** ** Reviving *)

(** The own properties of a schema element. *)
Definition propsOf (schema : Value) : Element :=
  match schema with
  | VObj props => props
  | _ => []
  end.

Definition itemToRelated (item : Item) : Related :=
  match item with
  | Some m => ROne m
  | None => RNull
  end.

(** [reviveOne], with [reviveRelations] and [reviveMany] as its local
    loops; the recursion follows the nesting of the schema. *)
Fixpoint reviveOne (db : Database) (mt : ModelType) (schema : Value)
  {struct schema} : Item :=
  let id := getIndexId mt (propsOf schema) in
  match connFind db mt id with
  | None => None
  | Some item =>
      let m := hydrate mt item in
      Some
        match schema with
        | VObj props =>
            (fix reviveRelations (props : list (string * Value)) (m : Model)
               {struct props} : Model :=
               match props with
               | [] => m
               | (key, relatedSchema) :: rest =>
                   match objGet key (fields mt) with
                   | Some (Rel attr) =>
                       if falsy relatedSchema then m
                       else
                         let sub := getModel db (related attr) in
                         let revived :=
                           match relatedSchema with
                           | VArr items =>
                               RMany
                                 ((fix reviveMany (items : list Value)
                                     : Collection :=
                                     match items with
                                     | [] => []
                                     | item :: more =>
                                         match reviveOne db sub item with
                                         | Some x => x :: reviveMany more
                                         | None => reviveMany more
                                         end
                                     end) items)
                           | _ => itemToRelated (reviveOne db sub relatedSchema)
                           end in
                         reviveRelations rest (setRelation m key revived)
                   | _ => reviveRelations rest m
                   end
               end) props m
        | _ => m
        end
  end.

(** [schema.reduce((collection, item) => { const model =
    this.reviveOne(item); model && collection.push(model); return
    collection }, [])]. *)
Definition reviveMany (db : Database) (mt : ModelType) (schema : list Value)
  : Collection :=
  fold_left
    (fun collection item =>
       match reviveOne db mt item with
       | Some m => collection ++ [m]
       | None => collection
       end)
    schema [].

(** The loop of [reviveRelations] over the properties of the schema; a
    falsy related schema leaves the loop ([return]), a field that is not
    a relation goes on to the next key ([continue]). *)
Fixpoint reviveRelationsFrom (db : Database) (mt : ModelType)
  (props : list (string * Value)) (m : Model) : Model :=
  match props with
  | [] => m
  | (key, relatedSchema) :: rest =>
      match objGet key (fields mt) with
      | Some (Rel attr) =>
          if falsy relatedSchema then m
          else
            let sub := getModel db (related attr) in
            let revived :=
              match relatedSchema with
              | VArr items => RMany (reviveMany db sub items)
              | _ => itemToRelated (reviveOne db sub relatedSchema)
              end in
            reviveRelationsFrom db mt rest (setRelation m key revived)
      | _ => reviveRelationsFrom db mt rest m
      end
  end.

Definition reviveRelations (db : Database) (mt : ModelType) (m : Model)
  (schema : Value) : Model :=
  reviveRelationsFrom db mt (propsOf schema) m.

Definition revive (db : Database) (q : Query) (schema : Value)
  : ItemOrCollection :=
  match schema with
  | VArr items => ACollection (reviveMany db (model q) items)
  | _ => AnItem (reviveOne db (model q) schema)
  end.

(* ================================================================== *)
(** * Writing methods of the Query class *)
(* ================================================================== *)

(** Modelled from the spec: the writes of the [Connection] of
    [connection/Connection], which is not part of the source at hand:
    [insert] (additive), [update] (a batched write of whole records),
    [delete] (removal by index id) and [flush] (the entity's records are
    emptied). *)
Definition connInsert (db : Database) (m : ModelType) (records : Elements)
  : Database :=
  connCommit db m (spread (connGet db m) records).

Definition connUpdate (db : Database) (m : ModelType) (records : Elements)
  : Database :=
  connCommit db m (spread (connGet db m) records).

Definition connDelete (db : Database) (m : ModelType) (ids : list string)
  : Database :=
  connCommit db m (fold_left (fun data id => objDelete id data) ids
                             (connGet db m)).

Definition connFlush (db : Database) (m : ModelType) : Database :=
  connCommit db m [].

(** [compile]: the models as an object keyed by index id; the callers
    hand a single model as a one-element collection. *)
Definition compile (q : Query) (models : Collection) : Elements :=
  fold_left
    (fun records m =>
       objSet (getIndexId (model q) (attributes m)) (getAttributes m) records)
    models [].

(** [insert], for an array of records and for one record. *)
Definition insert (db : Database) (q : Query) (records : Value)
  : Database * ItemOrCollection :=
  match records with
  | VArr items =>
      let models := map (fun r => hydrate (model q) (propsOf r)) items in
      (connInsert db (model q) (compile q models), ACollection models)
  | _ =>
      let m := hydrate (model q) (propsOf records) in
      (connInsert db (model q) (compile q [m]), AnItem (Some m))
  end.

(** [new]: [hydrate({})] and insert. *)
Definition new_ (db : Database) (q : Query) : Database * Model :=
  let m := hydrate (model q) [] in
  (connInsert db (model q) (compile q [m]), m).

Section Writing.

Variable orderBy :
  Collection -> list OrderBy -> list OrderDirection -> Collection.
Variable getEager : Database -> Relation -> Query -> Result Collection.

Definition update (db : Database) (q : Query) (record : Element)
  : Database * Result Collection :=
  match get orderBy getEager db q with
  | Throw message => (db, Throw message)
  | Ok models =>
      if isEmpty models then (db, Ok [])
      else
        let newModels :=
          map (fun m => hydrate (model q) (spread (getAttributes m) record))
              models in
        (connUpdate db (model q) (compile q newModels), Ok newModels)
  end.

Definition delete_ (db : Database) (q : Query)
  : Database * Result Collection :=
  match get orderBy getEager db q with
  | Throw message => (db, Throw message)
  | Ok models =>
      if isEmpty models then (db, Ok [])
      else
        let ids := getIndexIdsFromCollection q models in
        (connDelete db (model q) ids, Ok models)
  end.

Definition flush (db : Database) (q : Query)
  : Database * Result Collection :=
  match get orderBy getEager db q with
  | Throw message => (db, Throw message)
  | Ok models => (connFlush db (model q), Ok models)
  end.

End Writing.

Section Saving.

(** [process] of [interpreter/Interpreter], which is not part of the
    source at hand: the interpreter of the database and the model
    normalizes the input into the schema of the root and the elements of
    every entity. *)
Variable process : Database -> ModelType -> Value -> Value * JsObj Elements.

Definition save (db : Database) (q : Query) (records : Value)
  : Database * ItemOrCollection :=
  let '(data, entities) := process db (model q) records in
  let db :=
    forIn entities
          (fun entity elements db =>
             let query := newQuery db entity in
             saveElements db query elements)
          db in
  (db, revive db q data).

End Saving.

(* ================================================================== *)
(** * Standard collaborators *)
(* ================================================================== *)

(** The definitions of this part instantiate the collaborators that the
    source at hand leaves out; the examples run the query on them. *)

Module Standard.

(** Modelled from the spec: [orderBy] of [support/Utils], which is not
    part of the source at hand: a stable sort on the criteria of the
    order directives, each with its own direction, the first directive
    being the primary key of the sort. *)
Definition compareAscending (a b : Value) : comparison :=
  match a, b with
  | VNum x, VNum y => Z.compare x y
  | VStr x, VStr y => String.compare x y
  | _, _ => Eq
  end.

Definition criteria (iteratees : list OrderBy) (m : Model) : list Value :=
  map (fun iteratee =>
         match iteratee with
         | OrderField name => getProp m name
         | OrderSelector f => f m
         end)
      iteratees.

Fixpoint compareMultiple (object other : list Value)
  (directions : list OrderDirection) : comparison :=
  match object, other with
  | a :: object', b :: other' =>
      match compareAscending a b with
      | Eq => compareMultiple object' other' (tl directions)
      | c =>
          match directions with
          | Desc :: _ => CompOpp c
          | _ => c
          end
      end
  | _, _ => Eq
  end.

Fixpoint insertSorted (iteratees : list OrderBy)
  (directions : list OrderDirection) (m : Model) (sorted : Collection)
  : Collection :=
  match sorted with
  | [] => [m]
  | m' :: rest =>
      match compareMultiple (criteria iteratees m) (criteria iteratees m')
                            directions with
      | Gt => m' :: insertSorted iteratees directions m rest
      | _ => m :: m' :: rest
      end
  end.

Definition orderBy (collection : Collection) (iteratees : list OrderBy)
  (directions : list OrderDirection) : Collection :=
  fold_right (insertSorted iteratees directions) [] collection.

(** Modelled from the spec: [getEager] of the relation classes, which
    are not part of the source at hand: the sub-query is executed by
    [get]; [nesting] bounds how deep eager loads may nest. *)
Fixpoint getEager (nesting : nat) (db : Database) (relation : Relation)
  (query : Query) : Result Collection :=
  match nesting with
  | O => Throw ["Maximum call stack size exceeded"]
  | S n => get orderBy (getEager n) db query
  end.

(** Modelled from the spec: [$newInstance(record, { relations: false })]
    of [model/Model], which is not part of the source at hand: every
    field that is not a relation is filled from the record, or with
    its default. *)
Definition fill (fields : JsObj Attribute) (record : Element) : Element :=
  forIn fields
        (fun key attr filled =>
           match attr with
           | Rel _ => filled
           | Attr default =>
               objSet key
                      match objGet key record with
                      | Some v => v
                      | None => default
                      end
                      filled
           end)
        [].

(** Modelled from the spec: [$getIndexId] of [model/Model], which is
    not part of the source at hand: the store key is derived from the
    primary key, a composite key giving a composite index string. *)
Definition indexId (key : KeyName) (record : Element) : string :=
  let read name :=
    match objGet name record with Some v => v | None => VUndefined end in
  match key with
  | KeySingle name => toString (read name)
  | KeyComposite names =>
      ("[" ++ toString (VArr (map read names)) ++ "]")%string
  end.

Definition defineModel (entity : string) (key : KeyName)
  (fields : JsObj Attribute) : ModelType :=
  mkModelType entity fields key (fill fields) (indexId key).

(** Modelled from the spec: a has-many relation, "related.parent_id IN
    (parent ids)": the related records whose foreign key is the
    parent's local key. *)
Definition hasMany (related foreignKey localKey : string) : Relation :=
  mkRelation related
    (fun models =>
       [CallWhereIn foreignKey (map (fun m => getProp m localKey) models)])
    (fun m results =>
       RMany (filter (fun r => strictEq (getProp r foreignKey)
                                        (getProp m localKey))
                     results)).

(** Modelled from the spec: a belongs-to relation: the related record
    whose owner key is the parent's foreign key. *)
Definition belongsTo (related foreignKey ownerKey : string) : Relation :=
  mkRelation related
    (fun models =>
       [CallWhereIn ownerKey (map (fun m => getProp m foreignKey) models)])
    (fun m results =>
       itemToRelated
         (List.find (fun r => strictEq (getProp r ownerKey)
                                       (getProp m foreignKey))
                    results)).

(** Modelled from the spec: [process] of [interpreter/Interpreter],
    which is not part of the source at hand, on a record without nested
    relations: the record is its own schema and the only element of its
    entity, under its index id. *)
Definition processFlat (db : Database) (mt : ModelType) (records : Value)
  : Value * JsObj Elements :=
  (records,
   [(entity mt, [(getIndexId mt (propsOf records), propsOf records)])]).

End Standard.

(* ================================================================== *)
(** * An example database *)
(* ================================================================== *)

Module Example.

Import Standard.

(** Users have many posts and many comments; a post belongs to its
    author and has many comments. *)
Definition User : ModelType :=
  defineModel "users" (KeySingle "id")
    (objOf [("id", Attr VNull);
            ("name", Attr (VStr ""));
            ("posts", Rel (hasMany "posts" "userId" "id"));
            ("comments", Rel (hasMany "comments" "userId" "id"))]).

Definition Post : ModelType :=
  defineModel "posts" (KeySingle "id")
    (objOf [("id", Attr VNull);
            ("userId", Attr VNull);
            ("title", Attr (VStr ""));
            ("author", Rel (belongsTo "users" "userId" "id"));
            ("comments", Rel (hasMany "comments" "postId" "id"))]).

Definition Comment : ModelType :=
  defineModel "comments" (KeySingle "id")
    (objOf [("id", Attr VNull);
            ("userId", Attr VNull);
            ("postId", Attr VNull);
            ("body", Attr (VStr ""))]).

(** A model with a composite primary key. *)
Definition Membership : ModelType :=
  defineModel "memberships" (KeyComposite ["userId"; "teamId"])
    (objOf [("userId", Attr VNull);
            ("teamId", Attr VNull);
            ("role", Attr (VStr ""))]).

(** A model with three plain fields. *)
Definition Thing : ModelType :=
  defineModel "things" (KeySingle "id")
    (objOf [("id", Attr VNull); ("a", Attr VNull); ("b", Attr VNull)]).

Definition registry (name : string) : ModelType :=
  if String.eqb name "users" then User
  else if String.eqb name "posts" then Post
  else if String.eqb name "comments" then Comment
  else if String.eqb name "memberships" then Membership
  else Thing.

Definition userRecord (id : Z) : Element :=
  objOf [("id", VNum id); ("name", VStr ("user" ++ decimalZ id))].

Definition postRecord (id userId : Z) : Element :=
  objOf [("id", VNum id); ("userId", VNum userId); ("title", VStr "post")].

Definition commentRecord (id userId postId : Z) : Element :=
  objOf [("id", VNum id); ("userId", VNum userId); ("postId", VNum postId);
         ("body", VStr "comment")].

Definition keyed (records : list Element) : Elements :=
  objOf (map (fun r => (indexId (KeySingle "id") r, r)) records).

(** Ten users, with ids 1 to 10, inserted from 10 down to 1. *)
Definition tenUsers : Database :=
  mkDatabase registry
    (objOf [("users", keyed (map userRecord [10; 9; 8; 7; 6; 5; 4; 3; 2; 1]))]).

(** Two users. *)
Definition twoUsers : Database :=
  mkDatabase registry
    (objOf [("users", keyed (map userRecord [1; 2]))]).

(** Two users; user 1 wrote posts 10 and 11 and comment 100, user 2
    wrote comment 101, both comments on post 10. *)
Definition blog : Database :=
  mkDatabase registry
    (objOf [("users", keyed (map userRecord [1; 2]));
            ("posts", keyed [postRecord 10 1; postRecord 11 1]);
            ("comments", keyed [commentRecord 100 1 10;
                                commentRecord 101 2 10])]).

(** One membership, of a model with a composite key. *)
Definition teams : Database :=
  mkDatabase registry
    (objOf [("memberships",
             objOf [("[1,2]", objOf [("userId", VNum 1); ("teamId", VNum 2);
                                     ("role", VStr "owner")])])]).

(** One thing, [{ id: 1, a: 1, b: 2 }]. *)
Definition things : Database :=
  mkDatabase registry
    (objOf [("things",
             objOf [("1", objOf [("id", VNum 1); ("a", VNum 1);
                                 ("b", VNum 2)])])]).

(** The ids of a collection. *)
Definition idsOf (models : Collection) : list Value :=
  map (fun m => getProp m "id") models.

(** The normalized schema of a post without author, with two
    comments: [{ id: 10, author: null, comments: [{ id: 100 },
    { id: 101 }] }]. *)
Definition orphanPost : Value :=
  VObj [("id", VNum 10);
        ("author", VNull);
        ("comments", VArr [VObj [("id", VNum 100)];
                           VObj [("id", VNum 101)]])].

(** The same post with the author given. *)
Definition authoredPost : Value :=
  VObj [("id", VNum 10);
        ("author", VObj [("id", VNum 1)]);
        ("comments", VArr [VObj [("id", VNum 100)];
                           VObj [("id", VNum 101)]])].

(** The clauses [where('active', true)] then [orWhere('name', 'Jane')],
    and two models that are not active. *)
Definition activeOrJane : Query :=
  orWhere (where_ (newQueryOf User) (FieldName "active") (Val (VBool true)))
          (FieldName "name") (Val (VStr "Jane")).

Definition jane : Model :=
  mkModel [("active", VBool false); ("name", VStr "Jane")] [].

Definition john : Model :=
  mkModel [("active", VBool false); ("name", VStr "John")] [].

(** Users with their posts first, or with their comments first. *)
Definition postsThenComments : Query :=
  with_ (with_ (newQueryOf User) "posts" NoConstraint) "comments" NoConstraint.

Definition commentsThenPosts : Query :=
  with_ (with_ (newQueryOf User) "comments" NoConstraint) "posts" NoConstraint.

End Example.

(* ================================================================== *)
(** * Vocabulary of the properties *)
(* ================================================================== *)

(** The and-group and the or-group of the accumulated where clauses. *)
Definition isAnd (w : Where) : bool :=
  match boolean w with And => true | Or => false end.

Definition isOr (w : Where) : bool :=
  match boolean w with And => false | Or => true end.

Definition andGroup (q : Query) : list Where := filter isAnd (wheres q).
Definition orGroup (q : Query) : list Where := filter isOr (wheres q).

(** A group as [groupBy] holds it: no entry for an empty group. *)
Definition asGroup {A : Type} (group : list A) : option (list A) :=
  match group with
  | [] => None
  | _ => Some group
  end.

(** The query [orderBy('id', 'desc').limit(3).offset(2)] on users. *)
Definition pagedQuery : Query :=
  offset (limit (orderBy_ (newQueryOf Example.User) (OrderField "id") Desc) 3) 2.

(** An [orderBy] that puts the ten users of the example in descending
    order of their ids. *)
Definition sortsTenUsersDescending
  (orderBy : Collection -> list OrderBy -> list OrderDirection -> Collection)
  : Prop :=
  Example.idsOf
    (orderBy (all Example.tenUsers (newQueryOf Example.User))
             [OrderField "id"] [Desc]) =
  map VNum [10; 9; 8; 7; 6; 5; 4; 3; 2; 1].

(** The incoming elements [{ 1: { id: 1, b: 3 } }]. *)
Definition incomingThing : Elements :=
  objOf [("1", objOf [("id", VNum 1); ("b", VNum 3)])].

(** The value a model holds under the name of the primary key. *)
Definition keyOf (mt : ModelType) (m : Model) : Value :=
  getProp m (propertyKey (getKeyName mt)).

(** Two models with the same attributes and the same relation
    attributes attached. *)
Definition modelEquiv (m m' : Model) : Prop :=
  attributes m = attributes m' /\
  forall name, objGet name (relations m) = objGet name (relations m').

(** Two calls that both raise, or both return the same population. *)
Definition sameOutcome (r r' : Result Collection) : Prop :=
  match r, r' with
  | Ok models, Ok models' => Forall2 modelEquiv models models'
  | Throw _, Throw _ => True
  | _, _ => False
  end.

(** A relation that reads the stored attributes of the parent models,
    and not the relation attributes attached to them. *)
Definition readsAttributesOnly (r : Relation) : Prop :=
  (forall models models',
      map attributes models = map attributes models' ->
      addEagerConstraints r models = addEagerConstraints r models')
  /\ (forall m m' results,
        attributes m = attributes m' ->
        relate r m results = relate r m' results).

(** The keys of an object after an assignment. *)
Fixpoint insertIndexKey (n : N) (k : string) (keys : list string)
  : list string :=
  match keys with
  | [] => [k]
  | k' :: rest =>
      match arrayIndex k' with
      | Some n' =>
          if (n' <? n)%N then k' :: insertIndexKey n k rest
          else k :: k' :: rest
      | None => k :: k' :: rest
      end
  end.

Definition setKey (k : string) (keys : list string) : list string :=
  if existsb (String.eqb k) keys then keys
  else
    match arrayIndex k with
    | Some n => insertIndexKey n k keys
    | None => keys ++ [k]
    end.

(** One turn of the loop of [eagerLoadRelations], on the name [name] of
    the eager-load map [o]. *)
Definition loadStep
  (getEager : Database -> Relation -> Query -> Result Collection)
  (db : Database) (q : Query) (o : EagerLoad) (acc : Result Collection)
  (name : string) : Result Collection :=
  match objGet name o with
  | Some constraints =>
      models <- acc ;; eagerLoadRelation getEager db q models name constraints
  | None => acc
  end.

(** The sub-query that [eagerLoadRelation] hands to [getEager]. *)
Definition eagerQuery (db : Database) (relation : Relation)
  (constraints : Constraint) (models : Collection) : Query :=
  applyConstraint constraints
    (fold_left applyCall (addEagerConstraints relation models)
               (newQueryForRelation db relation)).

(** Whether [filterWhere] keeps a model. *)
Definition keeps (q : Query) (m : Model) : bool :=
  isEmpty (wheres q) || getWhereComparator q m.

(** What [reviveRelations] assigns for a related schema that is not
    falsy. *)
Definition revivedRelation (db : Database) (attr : Relation)
  (relatedSchema : Value) : Related :=
  let sub := getModel db (related attr) in
  match relatedSchema with
  | VArr items => RMany (reviveMany db sub items)
  | _ => itemToRelated (reviveOne db sub relatedSchema)
  end.

(** The last model of a collection with the given index id. *)
Definition lastWithIndexId (q : Query) (id : string) (models : Collection)
  : option Model :=
  List.find (fun m => String.eqb id (getIndexId (model q) (attributes m)))
            (rev models).

(* ================================================================== *)
(** * Properties of objects *)
(* ================================================================== *)

Section ObjectFacts.

Context {A : Type}.
Implicit Types (o : JsObj A) (k : string) (v : A).

Lemma objGet_app k o1 o2 :
  objGet k (o1 ++ o2) =
  match objGet k o1 with Some v => Some v | None => objGet k o2 end.
Proof.
  induction o1 as [|[k1 v1] o1 IH]; simpl; [reflexivity|].
  destruct (String.eqb k k1); [reflexivity | exact IH].
Qed.

Lemma objGet_objReplace_same k v o :
  objHas k o = true -> objGet k (objReplace k v o) = Some v.
Proof.
  unfold objHas.
  induction o as [|[k1 v1] o IH]; simpl; [discriminate|].
  destruct (String.eqb k k1) eqn:E; simpl; rewrite E; auto.
Qed.

Lemma objGet_objReplace_other k k' v o :
  k' <> k -> objGet k' (objReplace k v o) = objGet k' o.
Proof.
  intros Hne.
  induction o as [|[k1 v1] o IH]; simpl; [reflexivity|].
  destruct (String.eqb k k1) eqn:E; simpl.
  - apply String.eqb_eq in E; subst k1.
    apply String.eqb_neq in Hne. rewrite Hne. reflexivity.
  - destruct (String.eqb k' k1); [reflexivity | exact IH].
Qed.

Lemma objGet_objInsertIndex_same n k v o :
  objGet k o = None -> objGet k (objInsertIndex n k v o) = Some v.
Proof.
  induction o as [|[k1 v1] o IH]; simpl.
  - now rewrite String.eqb_refl.
  - destruct (String.eqb k k1) eqn:E; [discriminate|]. intros Hnone.
    destruct (arrayIndex k1) as [n1|]; [destruct (n1 <? n)%N|]; simpl;
      rewrite ?E, ?String.eqb_refl; auto.
Qed.

Lemma objGet_objInsertIndex_other n k k' v o :
  k' <> k -> objGet k' (objInsertIndex n k v o) = objGet k' o.
Proof.
  intros Hne. apply String.eqb_neq in Hne.
  induction o as [|[k1 v1] o IH]; simpl.
  - now rewrite Hne.
  - destruct (arrayIndex k1) as [n1|]; [destruct (n1 <? n)%N|]; simpl;
      rewrite ?Hne; try reflexivity.
    destruct (String.eqb k' k1); [reflexivity | exact IH].
Qed.

(** Reading after writing. *)
Lemma objGet_objSet k k' v o :
  objGet k' (objSet k v o) =
  if String.eqb k' k then Some v else objGet k' o.
Proof.
  unfold objSet.
  destruct (String.eqb k' k) eqn:E.
  - apply String.eqb_eq in E; subst k'.
    destruct (objHas k o) eqn:Hhas.
    + now apply objGet_objReplace_same.
    + assert (Hnone : objGet k o = None).
      { unfold objHas in Hhas. destruct (objGet k o); congruence. }
      destruct (arrayIndex k).
      * now apply objGet_objInsertIndex_same.
      * rewrite objGet_app, Hnone. simpl. now rewrite String.eqb_refl.
  - assert (Hne : k' <> k) by now apply String.eqb_neq.
    destruct (objHas k o).
    + now apply objGet_objReplace_other.
    + destruct (arrayIndex k).
      * now apply objGet_objInsertIndex_other.
      * rewrite objGet_app. simpl. rewrite E.
        destruct (objGet k' o); reflexivity.
Qed.

Lemma objGet_objSet_same k v o : objGet k (objSet k v o) = Some v.
Proof. now rewrite objGet_objSet, String.eqb_refl. Qed.

Lemma objGet_objSet_other k k' v o :
  k' <> k -> objGet k' (objSet k v o) = objGet k' o.
Proof.
  intros Hne. rewrite objGet_objSet.
  apply String.eqb_neq in Hne. now rewrite Hne.
Qed.

Lemma objHas_keys k o :
  existsb (String.eqb k) (objKeys o) = objHas k o.
Proof.
  unfold objHas.
  induction o as [|[k1 v1] o IH]; simpl; [reflexivity|].
  destruct (String.eqb k k1); simpl; [reflexivity | exact IH].
Qed.

End ObjectFacts.

(** A loop that assigns [dst[k] = f(k, src[k])] for the keys of [src]:
    afterwards every key of [src] holds its image and the other keys of
    [dst] are as before. *)
Lemma objGet_fold_assign {A B : Type} (src : JsObj A) (f : string -> A -> B)
  (keys : list string) (dst : JsObj B) (k : string) :
  objGet k
    (fold_left
       (fun s k' =>
          match objGet k' src with
          | Some v => objSet k' (f k' v) s
          | None => s
          end)
       keys dst) =
  if existsb (String.eqb k) keys then
    match objGet k src with
    | Some v => Some (f k v)
    | None => objGet k dst
    end
  else objGet k dst.
Proof.
  revert dst.
  induction keys as [|k1 keys IH]; intros dst; simpl; [reflexivity|].
  rewrite IH. clear IH.
  destruct (String.eqb k k1) eqn:E; simpl.
  - apply String.eqb_eq in E; subst k1.
    destruct (objGet k src) as [v|] eqn:Hsrc.
    + rewrite objGet_objSet_same. now destruct (existsb _ keys).
    + now destruct (existsb _ keys).
  - assert (Hne : k <> k1) by now apply String.eqb_neq.
    destruct (objGet k1 src) as [v1|]; [|reflexivity].
    now rewrite (objGet_objSet_other _ _ _ _ Hne).
Qed.

Lemma objGet_forIn_assign {A B : Type} (src : JsObj A) (f : string -> A -> B)
  (dst : JsObj B) (k : string) :
  objGet k (forIn src (fun k' v s => objSet k' (f k' v) s) dst) =
  match objGet k src with
  | Some v => Some (f k v)
  | None => objGet k dst
  end.
Proof.
  unfold forIn. rewrite objGet_fold_assign, objHas_keys.
  unfold objHas. now destruct (objGet k src).
Qed.

(** Spreading: the later object wins, the keys it lacks are kept. *)
Lemma objGet_spread {A : Type} (a b : JsObj A) (k : string) :
  objGet k (spread a b) =
  match objGet k b with
  | Some v => Some v
  | None => objGet k a
  end.
Proof.
  unfold spread.
  rewrite (objGet_forIn_assign b (fun _ v => v)).
  rewrite (objGet_forIn_assign a (fun _ v => v)).
  simpl. now destruct (objGet k a).
Qed.

(* ================================================================== *)
(** * Properties of the helpers *)
(* ================================================================== *)

(** The group of a key holds the elements of that key, in order, and
    there is no group for a key without elements. *)
Lemma objGet_groupBy {A : Type} (collection : list A) (iteratee : A -> string)
  (key : string) :
  objGet key (groupBy collection iteratee) =
  asGroup (filter (fun x => String.eqb (iteratee x) key) collection).
Proof.
  unfold groupBy.
  set (step := fun records record => _).
  assert (Hgen : forall xs done acc,
             (forall k, objGet k acc =
                        asGroup (filter (fun x => String.eqb (iteratee x) k)
                                        done)) ->
             forall k, objGet k (fold_left step xs acc) =
                       asGroup (filter (fun x => String.eqb (iteratee x) k)
                                       (done ++ xs))).
  { induction xs as [|x xs IH]; intros done acc Hacc k; simpl.
    - now rewrite app_nil_r.
    - replace (done ++ x :: xs) with ((done ++ [x]) ++ xs)
        by now rewrite <- app_assoc.
      apply IH. clear IH k. intros k.
      unfold step. rewrite filter_app. simpl.
      destruct (objGet (iteratee x) acc) as [group|] eqn:Hgroup;
        rewrite objGet_objSet; rewrite (String.eqb_sym k);
        destruct (String.eqb (iteratee x) k) eqn:E.
      + apply String.eqb_eq in E; subst k.
        rewrite Hacc in Hgroup.
        destruct (filter _ done) eqn:F; simpl in *; [discriminate|].
        now inversion Hgroup.
      + rewrite app_nil_r. apply Hacc.
      + apply String.eqb_eq in E; subst k.
        rewrite Hacc in Hgroup.
        destruct (filter _ done) eqn:F; simpl in *; [reflexivity|discriminate].
      + rewrite app_nil_r. apply Hacc. }
  apply (Hgen collection [] []). intros k. reflexivity.
Qed.

Lemma fold_left_pointwise {S B : Type} (f g : S -> B -> S) (xs : list B)
  (s : S) :
  (forall s x, f s x = g s x) -> fold_left f xs s = fold_left g xs s.
Proof.
  intros Hfg. revert s.
  induction xs as [|x xs IH]; intros s; simpl; [reflexivity|].
  now rewrite Hfg, IH.
Qed.

Lemma indexOfFrom_true (i : Z) (xs : list bool) :
  0 <= i ->
  negb (indexOfFrom i xs true =? -1) = existsb (fun b => b) xs.
Proof.
  revert i. induction xs as [|b xs IH]; intros i Hi; simpl; [reflexivity|].
  destruct b; simpl.
  - destruct (i =? -1) eqn:E; [lia | reflexivity].
  - apply IH. lia.
Qed.

Lemma indexOf_true (xs : list bool) :
  negb (indexOf xs true =? -1) = existsb (fun b => b) xs.
Proof. apply indexOfFrom_true. lia. Qed.

(** [slice] with an offset and a limit that are not negative takes
    [limit] elements after skipping [offset]. *)
Lemma slice_firstn_skipn {A : Type} (xs : list A) (offset limit : Z) :
  0 <= offset -> 0 <= limit ->
  slice xs offset (Some (offset + limit)) =
  firstn (Z.to_nat limit) (skipn (Z.to_nat offset) xs).
Proof.
  intros Ho Hl. unfold slice.
  destruct (offset <? 0) eqn:E1; [lia|].
  destruct (offset + limit <? 0) eqn:E2; [lia|].
  set (len := Z.of_nat (length xs)).
  destruct (Z.le_gt_cases len offset) as [Hle|Hgt].
  - rewrite !skipn_all2 by lia. now rewrite !firstn_nil.
  - replace (Z.to_nat (Z.min offset len)) with (Z.to_nat offset) by lia.
    destruct (Z.le_gt_cases (offset + limit) len) as [Hle2|Hgt2].
    + f_equal. lia.
    + rewrite !firstn_all2; [reflexivity | |];
        rewrite length_skipn; lia.
Qed.

Lemma slice_skipn {A : Type} (xs : list A) (offset : Z) :
  0 <= offset ->
  slice xs offset None = skipn (Z.to_nat offset) xs.
Proof.
  intros Ho. unfold slice.
  destruct (offset <? 0) eqn:E1; [lia|].
  set (len := Z.of_nat (length xs)).
  destruct (Z.le_gt_cases len offset) as [Hle|Hgt].
  - rewrite !skipn_all2 by lia. now rewrite firstn_nil.
  - replace (Z.to_nat (Z.min offset len)) with (Z.to_nat offset) by lia.
    apply firstn_all2. rewrite length_skipn. lia.
Qed.

(* ================================================================== *)
(** * Where clauses *)
(* ================================================================== *)

Lemma groupBy_and (q : Query) :
  objGet "and" (groupBy (wheres q) (fun w => connectorKey (boolean w))) =
  asGroup (andGroup q).
Proof.
  rewrite objGet_groupBy. unfold andGroup. f_equal.
  apply filter_ext. intros w. unfold isAnd. now destruct (boolean w).
Qed.

Lemma groupBy_or (q : Query) :
  objGet "or" (groupBy (wheres q) (fun w => connectorKey (boolean w))) =
  asGroup (orGroup q).
Proof.
  rewrite objGet_groupBy. unfold orGroup. f_equal.
  apply filter_ext. intros w. unfold isOr. now destruct (boolean w).
Qed.

(** The comparator of a query: a group that is absent contributes
    nothing, a group that is present contributes its conjunction or its
    disjunction. *)
Lemma getWhereComparator_groups (q : Query) (m : Model) :
  getWhereComparator q m =
  (negb (isEmpty (andGroup q)) && forallb (whereComparator m) (andGroup q))
  || (negb (isEmpty (orGroup q)) && existsb (whereComparator m) (orGroup q)).
Proof.
  unfold getWhereComparator.
  rewrite groupBy_and, groupBy_or, indexOf_true.
  destruct (andGroup q) as [|a ands]; destruct (orGroup q) as [|o ors];
    cbn [asGroup isEmpty negb app existsb andb orb];
    rewrite ?orb_false_r; reflexivity.
Qed.

(** C1. [filterWhere] keeps a model of the collection exactly when there
    are no clauses at all, or the and-group is not empty and every
    clause of it matches the model, or the or-group is not empty and at
    least one clause of it matches the model. *)
Theorem filterWhere_includes (q : Query) (models : Collection) (m : Model) :
  In m (filterWhere q models) <->
  In m models /\
  (wheres q = []
   \/ (andGroup q <> [] /\
       forall w, In w (andGroup q) -> whereComparator m w = true)
   \/ (orGroup q <> [] /\
       exists w, In w (orGroup q) /\ whereComparator m w = true)).
Proof.
  unfold filterWhere.
  destruct (wheres q) as [|w0 ws] eqn:Hw; cbn [isEmpty].
  - split; [intros H; split; [exact H | now left] | now intros [H _]].
  - rewrite filter_In, getWhereComparator_groups.
    rewrite orb_true_iff, !andb_true_iff, forallb_forall, existsb_exists.
    rewrite !negb_true_iff.
    assert (Hne : forall A (l : list A), isEmpty l = false <-> l <> []).
    { intros A [|x l]; simpl; split; congruence. }
    rewrite !Hne.
    split; intros [Hin Hc]; (split; [exact Hin|]).
    + right. exact Hc.
    + destruct Hc as [Hc|Hc]; [discriminate | exact Hc].
Qed.

(** [filterWhere] keeps the order of the collection. *)
Lemma filterWhere_filter (q : Query) (models : Collection) :
  filterWhere q models =
  filter (fun m => isEmpty (wheres q) || getWhereComparator q m) models.
Proof.
  unfold filterWhere. destruct (isEmpty (wheres q)); simpl; [|reflexivity].
  induction models as [|m ms IH]; simpl; congruence.
Qed.

Lemma includes_exists (items : list Value) (x : Value) :
  includes items x = true <->
  exists y, In y items /\ sameValueZero y x = true.
Proof. unfold includes. apply existsb_exists. Qed.

(** C2. The match of one clause, by priority: a closure in the field
    slot decides on the model; else an array in the value slot is
    searched for the field value of the model; else a closure in the
    value slot decides on the field value; else the field value is
    compared with the value by strict equality. *)
Theorem whereComparator_priority (m : Model) (w : Where) :
  (forall f, field w = FieldClosure f -> whereComparator m w = f m)
  /\ (forall name items,
        field w = FieldName name -> value w = Val (VArr items) ->
        whereComparator m w = includes items (getProp m name)
        /\ (whereComparator m w = true <->
            exists y, In y items /\ sameValueZero y (getProp m name) = true))
  /\ (forall name g,
        field w = FieldName name -> value w = ValClosure g ->
        whereComparator m w = g (getProp m name))
  /\ (forall name v,
        field w = FieldName name -> value w = Val v -> isArray v = false ->
        whereComparator m w = strictEq (getProp m name) v).
Proof.
  unfold whereComparator.
  split; [|split; [|split]].
  - intros f ->. reflexivity.
  - intros name items -> ->. split; [reflexivity | apply includes_exists].
  - intros name g -> ->. reflexivity.
  - intros name v -> -> Harr. destruct v; try reflexivity. discriminate.
Qed.

(* ================================================================== *)
(** * Retrieval *)
(* ================================================================== *)

Section RetrievalFacts.

Variable orderBy :
  Collection -> list OrderBy -> list OrderDirection -> Collection.
Variable getEager : Database -> Relation -> Query -> Result Collection.

Lemma filterLimit_slice (q : Query) (models : Collection) :
  filterLimit q models =
  match take q with
  | Some n => slice models (skip q) (Some (skip q + n))
  | None => slice models (skip q) None
  end.
Proof. reflexivity. Qed.

Lemma select_pipeline (db : Database) (q : Query) :
  select orderBy db q =
  filterLimit q (filterOrder orderBy q (filterWhere q (all db q))).
Proof. reflexivity. Qed.

(** Without eager loads, [get] is [select]. *)
Lemma get_without_eagerLoad (db : Database) (q : Query) :
  eagerLoad q = [] -> get orderBy getEager db q = Ok (select orderBy db q).
Proof.
  intros He. unfold get, eagerLoadRelations. rewrite He. simpl.
  now destruct (isEmpty (select orderBy db q)).
Qed.

Lemma slice_all {A : Type} (xs : list A) : slice xs 0 None = xs.
Proof. rewrite slice_skipn by lia. reflexivity. Qed.

(** [findIn] on a query without directives: the models whose key is
    in [ids], in the order of the store. *)
Lemma findIn_new (db : Database) (mt : ModelType) (ids : list Value) :
  snd (findIn orderBy getEager db (newQueryOf mt) ids) =
  Ok (filter (fun m => includes ids (keyOf mt m)) (all db (newQueryOf mt))).
Proof.
  unfold findIn. cbn [snd].
  rewrite get_without_eagerLoad by reflexivity.
  rewrite select_pipeline. f_equal.
  unfold filterLimit, filterOrder. cbn [take skip orders whereId where_
    pushWhere newQueryOf length Z.of_nat Z.eqb].
  rewrite slice_all, filterWhere_filter.
  apply filter_ext. intros m.
  rewrite getWhereComparator_groups.
  unfold andGroup, orGroup, keyOf, whereComparator.
  cbn [wheres whereId where_ pushWhere newQueryOf app filter isAnd isOr
       boolean isEmpty negb forallb existsb andb orb field value model].
  now rewrite andb_true_r, orb_false_r.
Qed.

End RetrievalFacts.

(** C3 (as amended). Pagination comes after filtering and ordering:
    [select] is [filterLimit] of [filterOrder] of [filterWhere] of all
    models, and [filterLimit] is [slice(offset, offset + limit)] when a
    limit is set, [slice(offset)] otherwise.  On the users with ids 1 to
    10, [orderBy('id', 'desc').limit(3).offset(2)] returns the models
    with ids 8, 7, 6 in that order, whenever [orderBy] sorts them in
    descending order. *)
Theorem pagination_after_filter_and_order
  (orderBy : Collection -> list OrderBy -> list OrderDirection -> Collection)
  (getEager : Database -> Relation -> Query -> Result Collection) :
  (forall db q,
      select orderBy db q =
      filterLimit q (filterOrder orderBy q (filterWhere q (all db q))))
  /\ (forall q models,
        filterLimit q models =
        match take q with
        | Some n => slice models (skip q) (Some (skip q + n))
        | None => slice models (skip q) None
        end)
  /\ (sortsTenUsersDescending orderBy ->
      exists models,
        get orderBy getEager Example.tenUsers pagedQuery = Ok models /\
        Example.idsOf models = [VNum 8; VNum 7; VNum 6]).
Proof.
  split; [reflexivity | split; [reflexivity|]].
  unfold sortsTenUsersDescending. intros Hsort.
  rewrite get_without_eagerLoad by reflexivity.
  eexists; split; [reflexivity|].
  rewrite select_pipeline.
  unfold filterLimit, filterOrder, filterWhere, pagedQuery.
  cbn [take skip orders wheres offset limit orderBy_ newQueryOf isEmpty
       app length Z.of_nat Z.eqb Pos.of_succ_nat map orderField direction
       model].
  change (all Example.tenUsers _)
    with (all Example.tenUsers (newQueryOf Example.User)).
  remember (orderBy _ _ _) as sorted eqn:Hs. clear Hs.
  unfold Example.idsOf in *.
  do 10 (destruct sorted as [|? sorted]; [discriminate Hsort|]).
  destruct sorted; [|discriminate Hsort].
  cbn in Hsort. injection Hsort as H1 H2 H3 H4 H5 H6 H7 H8 H9 H10.
  assert (Hslice : forall a b c d e f g h i j : Model,
             slice [a; b; c; d; e; f; g; h; i; j] 2 (Some (2 + 3))
             = [c; d; e]) by reflexivity.
  rewrite Hslice. cbn [map]. now rewrite H3, H4, H5.
Qed.

(** The standard [orderBy] sorts the ten users in descending order. *)
Lemma standard_sortsTenUsersDescending :
  sortsTenUsersDescending Standard.orderBy.
Proof. vm_compute. reflexivity. Qed.

Lemma pagination_after_filter_and_order_witness :
  exists models,
    get Standard.orderBy (Standard.getEager 3) Example.tenUsers pagedQuery
    = Ok models /\
    Example.idsOf models = [VNum 8; VNum 7; VNum 6].
Proof.
  apply (pagination_after_filter_and_order Standard.orderBy
           (Standard.getEager 3)).
  vm_compute. reflexivity.
Defined.

(** C3 (as stated) fails: the query on the users with ids 1 to 10 does
    not return the ids 7, 6, 5; after two of the ids 10, 9, 8, ... are
    skipped the first three are 8, 7, 6. *)
Lemma pagination_example_is_not_7_6_5 :
  ~ (exists models,
        get Standard.orderBy (Standard.getEager 3) Example.tenUsers pagedQuery
        = Ok models /\
        Example.idsOf models = [VNum 7; VNum 6; VNum 5]).
Proof.
  intros [models [Hget Hids]].
  vm_compute in Hget. injection Hget as <-.
  vm_compute in Hids. discriminate Hids.
Qed.

Lemma objGet_Some_key {A : Type} (o : JsObj A) (k : string) (v : A) :
  objGet k o = Some v -> In k (objKeys o).
Proof.
  induction o as [|[k1 v1] o IH]; cbn [objGet objKeys map fst];
    [discriminate|].
  destruct (String.eqb k k1) eqn:E.
  - apply String.eqb_eq in E; subst k1. now left.
  - intros H. right. now apply IH.
Qed.

(** What a loop that pushes the image of every value collects. *)
Lemma In_forIn_push {A B : Type} (o : JsObj A) (g : A -> B) (x : B) :
  In x (forIn o (fun _ v acc => acc ++ [g v]) []) <->
  exists k v, objGet k o = Some v /\ x = g v.
Proof.
  unfold forIn.
  assert (Hgen : forall keys acc,
             In x (fold_left
                     (fun s k =>
                        match objGet k o with
                        | Some v => s ++ [g v]
                        | None => s
                        end)
                     keys acc) <->
             In x acc \/
             exists k v, In k keys /\ objGet k o = Some v /\ x = g v).
  { induction keys as [|k keys IH]; intros acc; cbn [fold_left].
    - split; [now left | intros [H | [k [v [[] _]]]]; exact H].
    - rewrite IH. split.
      + intros [Hacc | [k' [v' [Hin [Hget Hx]]]]].
        * destruct (objGet k o) as [v|] eqn:E; [|now left].
          apply in_app_or in Hacc. destruct Hacc as [Hacc | [<- | []]];
            [now left|].
          right. exists k, v. repeat split; [now left | exact E].
        * right. exists k', v'. repeat split; [now right | exact Hget | exact Hx].
      + intros [Hacc | [k' [v' [[<- | Hin] [Hget Hx]]]]].
        * left. destruct (objGet k o); [apply in_or_app|]; auto.
        * left. rewrite Hget. apply in_or_app. right. left. now symmetry.
        * right. exists k', v'. repeat split; assumption. }
  rewrite Hgen. split.
  - intros [[] | [k [v [_ [Hget Hx]]]]]. now exists k, v.
  - intros [k [v [Hget Hx]]]. right. exists k, v.
    repeat split; [eapply objGet_Some_key; eassumption | exact Hget | exact Hx].
Qed.

(** The models of [all()] are the hydrated records of the store. *)
Lemma In_all (db : Database) (q : Query) (m : Model) :
  In m (all db q) <->
  exists id record,
    connFind db (model q) id = Some record /\ m = hydrate (model q) record.
Proof. unfold all, connFind. apply In_forIn_push. Qed.

(** C4 (as amended). [find] with a list of ids adds the membership
    clause on the primary key to the chain of the query and returns
    [get()] of that chain.  On a query that holds no directive before
    the call, it never raises and returns exactly the models hydrated
    from the records of the store whose primary key is a member of the
    list, in the order of the store; ids without record are left out. *)
Theorem find_ids_returns_members
  (orderBy : Collection -> list OrderBy -> list OrderDirection -> Collection)
  (getEager : Database -> Relation -> Query -> Result Collection)
  (db : Database) (mt : ModelType) (ids : list Value) :
  (forall q,
      find orderBy getEager db q (VArr ids) =
      (whereId q (VArr ids),
       models <- get orderBy getEager db (whereId q (VArr ids)) ;;
       Ok (ACollection models)))
  /\ exists models,
      snd (find orderBy getEager db (newQueryOf mt) (VArr ids))
      = Ok (ACollection models)
      /\ models = filter (fun m => includes ids (keyOf mt m))
                         (all db (newQueryOf mt))
      /\ forall m,
          In m models <->
          exists id record,
            connFind db mt id = Some record
            /\ m = hydrate mt record
            /\ exists x, In x ids /\ sameValueZero x (keyOf mt m) = true.
Proof.
  split; [reflexivity|].
  eexists. split; [|split; [reflexivity|]].
  - unfold find.
    pose proof (findIn_new orderBy getEager db mt ids) as H.
    destruct (findIn orderBy getEager db (newQueryOf mt) ids) as [q' r].
    cbn [snd] in *. rewrite H. reflexivity.
  - intros m. rewrite filter_In, includes_exists, In_all.
    cbn [model newQueryOf]. split.
    + intros [[id [record [Hfind Hm]]] Hin]. now exists id, record.
    + intros [id [record [Hfind [Hm Hin]]]]. split; [|exact Hin].
      now exists id, record.
Qed.

(** [find([1, 2, 999])] on the store that holds the users 1 and 2
    returns those two models. *)
Lemma find_ids_returns_members_witness :
  snd (find Standard.orderBy (Standard.getEager 3) Example.twoUsers
            (newQueryOf Example.User) (VArr [VNum 1; VNum 2; VNum 999]))
  = Ok (ACollection
          [mkModel [("id", VNum 1); ("name", VStr "user1")] [];
           mkModel [("id", VNum 2); ("name", VStr "user2")] []]).
Proof.
  destruct (proj2 (find_ids_returns_members Standard.orderBy
                     (Standard.getEager 3) Example.twoUsers Example.User
                     [VNum 1; VNum 2; VNum 999]))
    as [models [Hfind [Hmodels _]]].
  rewrite Hfind, Hmodels. vm_compute. reflexivity.
Defined.

(** C4 (as stated) fails on a query that holds a directive already: the
    membership clause joins the chain, so after
    [orWhere('name', 'user2')] the call [find([1])] returns the users 1
    and 2, and the key of user 2 is not a member of the list. *)
Lemma find_ids_on_chained_query :
  snd (find Standard.orderBy (Standard.getEager 3) Example.twoUsers
            (orWhere (newQueryOf Example.User) (FieldName "name")
                     (Val (VStr "user2")))
            (VArr [VNum 1]))
  = Ok (ACollection
          [mkModel [("id", VNum 1); ("name", VStr "user1")] [];
           mkModel [("id", VNum 2); ("name", VStr "user2")] []])
  /\ includes [VNum 1]
       (keyOf Example.User
              (mkModel [("id", VNum 2); ("name", VStr "user2")] []))
     = false.
Proof. split; vm_compute; reflexivity. Qed.

(** [find([1, 2, 999])] on the store with the users 1 and 2. *)
Example find_1_2_999 :
  snd (find Standard.orderBy (Standard.getEager 3) Example.twoUsers
            (newQueryOf Example.User) (VArr [VNum 1; VNum 2; VNum 999]))
  = Ok (ACollection
          [mkModel [("id", VNum 1); ("name", VStr "user1")] [];
           mkModel [("id", VNum 2); ("name", VStr "user2")] []]).
Proof. vm_compute. reflexivity. Qed.

(* ================================================================== *)
(** * Saving *)
(* ================================================================== *)

Lemma connGet_connCommit (db : Database) (m : ModelType) (records : Elements) :
  connGet (connCommit db m records) m = records.
Proof.
  unfold connGet, connCommit. cbn [state].
  now rewrite objGet_objSet_same.
Qed.

(** What [saveElements] writes under an id of the incoming elements. *)
Lemma saveElements_newData (db : Database) (q : Query) (elements : Elements) :
  exists newData,
    saveElements db q elements = connSave db (model q) newData /\
    forall id,
      objGet id newData =
      match objGet id elements with
      | Some record =>
          Some match objGet id (data db q) with
               | Some existing =>
                   getAttributes (hydrate (model q) (spread existing record))
               | None => getAttributes (hydrate (model q) record)
               end
      | None => None
      end.
Proof.
  eexists. split; [reflexivity|].
  intros id.
  rewrite (objGet_forIn_assign elements
             (fun id record =>
                match objGet id (data db q) with
                | Some existing =>
                    getAttributes (hydrate (model q) (spread existing record))
                | None => getAttributes (hydrate (model q) record)
                end)).
  reflexivity.
Qed.

(** C5. [saveElements] persists, in one [save] of the connection, for
    each incoming element whose id is in the store the hydrated merge of
    the existing record with the incoming one, in which the incoming
    fields win and the other fields of the existing record are kept, and
    for each element with a fresh id the hydrated incoming record; the
    records of other ids stay as they are. *)
Theorem saveElements_merges (db : Database) (q : Query) (elements : Elements)
  (id : string) (record : Element) :
  objGet id elements = Some record ->
  let persisted :=
    match objGet id (data db q) with
    | Some existing =>
        getAttributes (hydrate (model q) (spread existing record))
    | None => getAttributes (hydrate (model q) record)
    end in
  (exists newData,
      saveElements db q elements = connSave db (model q) newData /\
      objGet id newData = Some persisted /\
      forall id', objGet id' elements = None -> objGet id' newData = None)
  /\ objGet id (data (saveElements db q elements) q) = Some persisted
  /\ (forall existing name,
        objGet id (data db q) = Some existing ->
        objGet name (spread existing record) =
        match objGet name record with
        | Some v => Some v
        | None => objGet name existing
        end)
  /\ (forall id',
        objGet id' elements = None ->
        objGet id' (data (saveElements db q elements) q) =
        objGet id' (data db q)).
Proof.
  intros Hrec persisted.
  destruct (saveElements_newData db q elements) as [newData [Hsave Hnew]].
  assert (Hdata : forall k,
             objGet k (data (saveElements db q elements) q) =
             match objGet k newData with
             | Some v => Some v
             | None => objGet k (data db q)
             end).
  { intros k. rewrite Hsave. unfold data, connSave.
    rewrite connGet_connCommit. apply objGet_spread. }
  split; [|split; [|split]].
  - exists newData. split; [exact Hsave|]. split.
    + rewrite Hnew, Hrec. reflexivity.
    + intros id' Hnone. now rewrite Hnew, Hnone.
  - rewrite Hdata, Hnew, Hrec. reflexivity.
  - intros existing name _. apply objGet_spread.
  - intros id' Hnone. now rewrite Hdata, Hnew, Hnone.
Qed.

Lemma saveElements_merges_witness :
  objGet "1" (data (saveElements Example.things (newQueryOf Example.Thing)
                                 incomingThing)
                   (newQueryOf Example.Thing))
  = Some [("id", VNum 1); ("a", VNum 1); ("b", VNum 3)].
Proof.
  apply (saveElements_merges Example.things (newQueryOf Example.Thing)
           incomingThing "1" (objOf [("id", VNum 1); ("b", VNum 3)])).
  reflexivity.
Defined.

(* ================================================================== *)
(** * Destroying *)
(* ================================================================== *)

(** C6. On a model with a composite primary key, [destroy] raises the
    error that points to [delete], for one id and for a list of ids,
    before anything is written: the store and the query are as before
    the call. *)
Theorem destroy_composite_key_raises
  (orderBy : Collection -> list OrderBy -> list OrderDirection -> Collection)
  (getEager : Database -> Relation -> Query -> Result Collection)
  (db : Database) (q : Query) (ids : Value) :
  hasCompositeKey (model q) = true ->
  destroy orderBy getEager db q ids =
  (db, q,
   Throw ["You can't use the `destroy` method on a model with a composite key.";
          "Please use `delete` method instead."]).
Proof.
  intros Hkey. unfold destroy, assert. rewrite Hkey. reflexivity.
Qed.

Lemma destroy_composite_key_raises_witness :
  destroy Standard.orderBy (Standard.getEager 3) Example.teams
          (newQueryOf Example.Membership) (VArr [VStr "[1,2]"])
  = (Example.teams, newQueryOf Example.Membership,
     Throw ["You can't use the `destroy` method on a model with a composite key.";
            "Please use `delete` method instead."]).
Proof.
  apply (destroy_composite_key_raises Standard.orderBy (Standard.getEager 3)
           Example.teams (newQueryOf Example.Membership)
           (VArr [VStr "[1,2]"])).
  reflexivity.
Defined.

(** On a model with a single key, the same call removes the record. *)
Example destroy_single_key :
  let '(db, _, r) :=
    destroy Standard.orderBy (Standard.getEager 3) Example.twoUsers
            (newQueryOf Example.User) (VNum 1) in
  objKeys (connGet db Example.User) = ["2"] /\
  r = Ok (AnItem (Some (mkModel [("id", VNum 1); ("name", VStr "user1")] []))).
Proof. vm_compute. split; reflexivity. Qed.

(* ================================================================== *)
(** * Reviving *)
(* ================================================================== *)

Lemma reviveMany_from (db : Database) (mt : ModelType) (items : list Value)
  (collection : Collection) :
  fold_left
    (fun collection item =>
       match reviveOne db mt item with
       | Some m => collection ++ [m]
       | None => collection
       end)
    items collection =
  collection ++ reviveMany db mt items.
Proof.
  unfold reviveMany.
  revert collection.
  induction items as [|item items IH]; intros collection; simpl.
  - now rewrite app_nil_r.
  - destruct (reviveOne db mt item) as [m|].
    + rewrite IH, (IH [m]). now rewrite <- app_assoc.
    + apply IH.
Qed.

(** [reviveMany] maps [reviveOne] over the array and drops the nulls. *)
Lemma reviveMany_cons (db : Database) (mt : ModelType) (item : Value)
  (items : list Value) :
  reviveMany db mt (item :: items) =
  match reviveOne db mt item with
  | Some m => m :: reviveMany db mt items
  | None => reviveMany db mt items
  end.
Proof.
  unfold reviveMany at 1. simpl. rewrite reviveMany_from.
  now destruct (reviveOne db mt item).
Qed.

(** [reviveOne] looks the id up in the store, hydrates the record and
    runs [reviveRelations] on the model. *)
Lemma reviveOne_unfold (db : Database) (mt : ModelType) (schema : Value) :
  reviveOne db mt schema =
  match connFind db mt (getIndexId mt (propsOf schema)) with
  | None => None
  | Some item => Some (reviveRelations db mt (hydrate mt item) schema)
  end.
Proof.
  destruct schema; cbn [reviveOne propsOf];
    try (destruct (connFind db mt _); reflexivity).
  destruct (connFind db mt (getIndexId mt props)) as [item|]; [|reflexivity].
  f_equal. unfold reviveRelations. cbn [propsOf].
  generalize (hydrate mt item) as m.
  induction props as [|[key relatedSchema] rest IH]; intros m;
    [reflexivity|].
  cbn [reviveRelationsFrom].
  destruct (objGet key (fields mt)) as [[d|attr]|]; try apply IH.
  destruct (falsy relatedSchema); [reflexivity|].
  rewrite <- IH. do 2 f_equal.
  destruct relatedSchema; try reflexivity.
  f_equal. induction items as [|item' items IHi]; [reflexivity|].
  rewrite reviveMany_cons, <- IHi. reflexivity.
Qed.

(** A relation field whose related schema is falsy ends
    [reviveRelations]: the keys after it are not visited. *)
Lemma reviveRelations_returns_at_falsy (db : Database) (mt : ModelType)
  (key : string) (attr : Relation) (relatedSchema : Value)
  (rest : list (string * Value)) (m : Model) :
  objGet key (fields mt) = Some (Rel attr) ->
  falsy relatedSchema = true ->
  reviveRelations db mt m (VObj ((key, relatedSchema) :: rest)) = m.
Proof.
  intros Hrel Hfalsy. unfold reviveRelations. cbn [propsOf reviveRelationsFrom].
  now rewrite Hrel, Hfalsy.
Qed.

(** C7 (the code departs from it). The post 10 of the example is in the
    store, and its schema holds the relation fields [author] and
    [comments].  With [author: null] the comments are not revived: the
    revived model has no [comments] attribute, where the same schema
    with an author gives it both comments. *)
Theorem reviveOne_stops_at_null_relation :
  (exists m,
      reviveOne Example.blog Example.Post Example.orphanPost = Some m /\
      objGet "comments" (relations m) = None)
  /\ (exists m,
        reviveOne Example.blog Example.Post Example.authoredPost = Some m /\
        objGet "comments" (relations m) =
        Some (RMany
                [mkModel [("id", VNum 100); ("userId", VNum 1);
                          ("postId", VNum 10); ("body", VStr "comment")] [];
                 mkModel [("id", VNum 101); ("userId", VNum 2);
                          ("postId", VNum 10); ("body", VStr "comment")] []])).
Proof.
  split; eexists; (split; [vm_compute; reflexivity|]); reflexivity.
Qed.

(* ================================================================== *)
(** * Registering eager loads *)
(* ================================================================== *)

Lemma withAll_fold (flds : JsObj Attribute) (c : Constraint)
  (keys : list string) (q : Query) (k : string) :
  let q' :=
    fold_left
      (fun q name =>
         match objGet name flds with
         | Some (Rel _) => with_ q name c
         | Some (Attr _) => q
         | None => q
         end)
      keys q in
  objGet k (eagerLoad q') =
  (if existsb (String.eqb k) keys then
     match objGet k flds with
     | Some (Rel _) => Some c
     | _ => objGet k (eagerLoad q)
     end
   else objGet k (eagerLoad q))
  /\ model q' = model q /\ wheres q' = wheres q /\ orders q' = orders q
  /\ take q' = take q /\ skip q' = skip q.
Proof.
  revert q. induction keys as [|k1 keys IH]; intros q; cbn [fold_left existsb].
  - repeat split.
  - specialize (IH match objGet k1 flds with
                   | Some (Rel _) => with_ q k1 c
                   | Some (Attr _) => q
                   | None => q
                   end).
    cbv zeta in IH |- *.
    destruct IH as [Hget Hrest].
    split.
    + rewrite Hget. clear Hget Hrest.
      destruct (String.eqb k k1) eqn:E; cbn [orb].
      * apply String.eqb_eq in E; subst k1.
        destruct (objGet k flds) as [[d|r]|];
          cbn [with_ eagerLoad]; rewrite ?objGet_objSet_same;
          now destruct (existsb _ keys).
      * assert (Hne : k <> k1) by now apply String.eqb_neq.
        destruct (objGet k1 flds) as [[d|r]|]; try reflexivity.
        cbn [with_ eagerLoad].
        now rewrite (objGet_objSet_other _ _ _ _ Hne).
    + destruct (objGet k1 flds) as [[d|r]|]; exact Hrest.
Qed.

(** [withAll] registers the callback for every relation field of the
    model and changes nothing else. *)
Lemma withAll_registers (q : Query) (c : Constraint) (k : string) :
  objGet k (eagerLoad (withAll q c)) =
  match objGet k (fields (model q)) with
  | Some (Rel _) => Some c
  | _ => objGet k (eagerLoad q)
  end
  /\ model (withAll q c) = model q /\ wheres (withAll q c) = wheres q
  /\ orders (withAll q c) = orders q /\ take (withAll q c) = take q
  /\ skip (withAll q c) = skip q.
Proof.
  pose proof (withAll_fold (fields (model q)) c (objKeys (fields (model q)))
                           q k) as H.
  cbv zeta in H.
  assert (Hfold : withAll q c =
                  fold_left
                    (fun q0 name =>
                       match objGet name (fields (model q)) with
                       | Some (Rel _) => with_ q0 name c
                       | Some (Attr _) => q0
                       | None => q0
                       end)
                    (objKeys (fields (model q))) q).
  { unfold withAll, forIn. apply fold_left_pointwise.
    intros q0 k1.
    destruct (objGet k1 (fields (model q))) as [[d|r]|]; reflexivity. }
  rewrite Hfold.
  destruct H as [Hget Hrest]. split; [|exact Hrest].
  rewrite Hget, objHas_keys. unfold objHas.
  now destruct (objGet k (fields (model q))).
Qed.

(** C8. [withAllRecursive(depth)] registers, for every relation field
    of the model, a constraint that calls [withAllRecursive(depth - 1)]
    on the sub-query while [depth] is positive, and that registers
    nothing on the sub-query once [depth] is 0 (or below): there the
    recursion stops. *)
Theorem withAllRecursive_levels (q : Query) (depth : Z) :
  (forall name,
      objGet name (eagerLoad (withAllRecursive q depth)) =
      match objGet name (fields (model q)) with
      | Some (Rel _) => Some (RecursiveConstraint depth)
      | _ => objGet name (eagerLoad q)
      end)
  /\ (forall sub,
        0 < depth ->
        applyConstraint (RecursiveConstraint depth) sub =
        withAllRecursive sub (depth - 1))
  /\ (forall sub,
        depth <= 0 ->
        applyConstraint (RecursiveConstraint depth) sub = sub).
Proof.
  split; [|split].
  - intros name. unfold withAllRecursive. apply withAll_registers.
  - intros sub Hpos. unfold applyConstraint.
    destruct (depth >? 0) eqn:E; [reflexivity | lia].
  - intros sub Hle. unfold applyConstraint.
    destruct (depth >? 0) eqn:E; [lia | reflexivity].
Qed.

Lemma withAllRecursive_levels_witness :
  objGet "posts" (eagerLoad (withAllRecursive (newQueryOf Example.User) 1)) =
  Some (RecursiveConstraint 1)
  /\ objGet "author"
       (eagerLoad (applyConstraint (RecursiveConstraint 1)
                                   (newQueryOf Example.Post))) =
     Some (RecursiveConstraint 0)
  /\ eagerLoad (applyConstraint (RecursiveConstraint 0)
                                (newQueryOf Example.User)) = [].
Proof.
  split; [|split].
  - exact (proj1 (withAllRecursive_levels (newQueryOf Example.User) 1)
                 "posts").
  - rewrite (proj1 (proj2 (withAllRecursive_levels
                             (newQueryOf Example.Post) 1)))
      by reflexivity.
    reflexivity.
  - rewrite (proj2 (proj2 (withAllRecursive_levels
                             (newQueryOf Example.User) 0)))
      by reflexivity.
    reflexivity.
Defined.

(** With the default depth of [withAllRecursive] replaced by 0, the
    relations of the users are loaded and the relations of their posts
    are not; with depth 1 the posts have their author and comments. *)
Example withAllRecursive_loads :
  (exists u1 u2 p10 p11,
      get Standard.orderBy (Standard.getEager 5) Example.blog
          (withAllRecursive (newQueryOf Example.User) 0) = Ok [u1; u2] /\
      objGet "posts" (relations u1) = Some (RMany [p10; p11]) /\
      relations p10 = [])
  /\ (exists u1 u2 p10 p11 author,
        get Standard.orderBy (Standard.getEager 5) Example.blog
            (withAllRecursive (newQueryOf Example.User) 1) = Ok [u1; u2] /\
        objGet "posts" (relations u1) = Some (RMany [p10; p11]) /\
        objGet "author" (relations p10) = Some (ROne author) /\
        relations author = []).
Proof.
  split.
  - do 4 eexists. split; [vm_compute; reflexivity|]. split; reflexivity.
  - do 5 eexists. split; [vm_compute; reflexivity|].
    split; [reflexivity|]. split; reflexivity.
Qed.

(* ================================================================== *)
(** * The directive state across terminal calls *)
(* ================================================================== *)

Section TerminalCalls.

Variable orderBy :
  Collection -> list OrderBy -> list OrderDirection -> Collection.
Variable getEager : Database -> Relation -> Query -> Result Collection.

Lemma first_query (db : Database) (q : Query) :
  fst (first orderBy getEager db q) = limit q 1.
Proof. reflexivity. Qed.

Lemma find_query (db : Database) (q : Query) (id : Value) :
  fst (find orderBy getEager db q id) =
  match id with
  | VArr _ => whereId q id
  | _ => limit (whereId q id) 1
  end.
Proof. destruct id; reflexivity. Qed.

Lemma destroyOne_query (db : Database) (q : Query) (id : Value) :
  snd (fst (destroyOne orderBy getEager db q id)) =
  fst (find orderBy getEager db q id).
Proof.
  unfold destroyOne.
  destruct (find orderBy getEager db q id) as [q' r].
  destruct r as [[[m|]|c]|message]; reflexivity.
Qed.

Lemma destroyMany_query (db : Database) (q : Query) (ids : Value) :
  snd (fst (destroyMany orderBy getEager db q ids)) =
  fst (find orderBy getEager db q ids).
Proof.
  unfold destroyMany.
  destruct (find orderBy getEager db q ids) as [q' r].
  destruct r as [[item|[|m ms]]|message]; reflexivity.
Qed.

(** C9 (as amended). The terminal calls change the directive state of
    the query through its chain methods: [first()] leaves the query as
    [limit(1)] leaves it; [find(id)], and [destroy(id)] on a model whose
    key is not composite, leave it as [whereId(id)] followed by
    [limit(1)] leave it, that is with one where clause on the primary
    key appended and the limit set to 1, the order directives, the
    offset and the eager-load map being as before; [destroy] on a model
    with a composite key leaves the query as it was. *)
Theorem terminal_calls_use_chain_methods (db : Database) (q : Query)
  (id : Value) :
  fst (first orderBy getEager db q) = limit q 1
  /\ (isArray id = false ->
      fst (find orderBy getEager db q id) = limit (whereId q id) 1)
  /\ (isArray id = false -> hasCompositeKey (model q) = false ->
      snd (fst (destroy orderBy getEager db q id)) = limit (whereId q id) 1)
  /\ (hasCompositeKey (model q) = true ->
      snd (fst (destroy orderBy getEager db q id)) = q)
  /\ (let q' := limit (whereId q id) 1 in
      model q' = model q
      /\ wheres q' =
         wheres q ++ [mkWhere (FieldName (propertyKey (getKeyName (model q))))
                              (Val id) And]
      /\ orders q' = orders q
      /\ take q' = Some 1
      /\ skip q' = skip q
      /\ eagerLoad q' = eagerLoad q).
Proof.
  split; [reflexivity|]. split; [|split; [|split]].
  - intros Harr. rewrite find_query. destruct id; try reflexivity.
    discriminate Harr.
  - intros Harr Hkey. unfold destroy, assert. rewrite Hkey, Harr.
    cbn [negb]. rewrite destroyOne_query, find_query.
    destruct id; try reflexivity. discriminate Harr.
  - intros Hkey. unfold destroy, assert. rewrite Hkey. reflexivity.
  - repeat split.
Qed.

End TerminalCalls.

Lemma terminal_calls_use_chain_methods_witness :
  snd (fst (destroy Standard.orderBy (Standard.getEager 3) Example.twoUsers
                    (newQueryOf Example.User) (VNum 1)))
  = limit (whereId (newQueryOf Example.User) (VNum 1)) 1.
Proof.
  apply (terminal_calls_use_chain_methods Standard.orderBy
           (Standard.getEager 3) Example.twoUsers (newQueryOf Example.User)
           (VNum 1)); reflexivity.
Defined.

(** C9 (as stated) fails: after [first()] on a query as constructed the
    limit is 1, where it was not set before. *)
Lemma first_changes_the_query :
  fst (first Standard.orderBy (Standard.getEager 3) Example.twoUsers
             (newQueryOf Example.User))
  <> newQueryOf Example.User.
Proof.
  intros H. apply (f_equal take) in H. discriminate H.
Qed.

(** After [find(1)] the query holds a where clause and a limit. *)
Example find_changes_the_query :
  let q := fst (find Standard.orderBy (Standard.getEager 3) Example.twoUsers
                     (newQueryOf Example.User) (VNum 1)) in
  length (wheres q) = 1%nat /\ take q = Some 1.
Proof. split; reflexivity. Qed.

(* ================================================================== *)
(** * The order of the keys of an object *)
(* ================================================================== *)

(** An array index is the decimal form of its number, so two keys with
    the same number are the same key. *)
Lemma arrayIndex_decimal (k : string) (n : N) :
  arrayIndex k = Some n -> k = decimal n.
Proof.
  unfold arrayIndex.
  destruct (digitsValue 0 k) as [n'|]; [|discriminate].
  destruct ((n' <? 4294967295)%N && String.eqb (decimal n') k)%bool eqn:E;
    [|discriminate].
  intros H. injection H as <-.
  apply andb_true_iff in E. destruct E as [_ E].
  apply String.eqb_eq in E. now symmetry.
Qed.

Lemma arrayIndex_inj (a b : string) (n : N) :
  arrayIndex a = Some n -> arrayIndex b = Some n -> a = b.
Proof.
  intros Ha Hb.
  apply arrayIndex_decimal in Ha, Hb. congruence.
Qed.

Lemma objKeys_objReplace {A : Type} (k : string) (v : A) (o : JsObj A) :
  objKeys (objReplace k v o) = objKeys o.
Proof.
  induction o as [|[k1 v1] o IH]; simpl; [reflexivity|].
  destruct (String.eqb k k1); simpl; [reflexivity | now rewrite IH].
Qed.

Lemma objKeys_objInsertIndex {A : Type} (n : N) (k : string) (v : A)
  (o : JsObj A) :
  objKeys (objInsertIndex n k v o) = insertIndexKey n k (objKeys o).
Proof.
  induction o as [|[k1 v1] o IH]; simpl; [reflexivity|].
  destruct (arrayIndex k1) as [n1|]; [destruct (n1 <? n)%N|]; simpl;
    try reflexivity.
  now rewrite IH.
Qed.

Lemma objKeys_objSet {A : Type} (k : string) (v : A) (o : JsObj A) :
  objKeys (objSet k v o) = setKey k (objKeys o).
Proof.
  unfold objSet, setKey. rewrite objHas_keys.
  destruct (objHas k o).
  - apply objKeys_objReplace.
  - destruct (arrayIndex k).
    + apply objKeys_objInsertIndex.
    + unfold objKeys. now rewrite map_app.
Qed.

Lemma existsb_insertIndexKey (p : string -> bool) (n : N) (k : string)
  (keys : list string) :
  existsb p (insertIndexKey n k keys) = p k || existsb p keys.
Proof.
  induction keys as [|k1 keys IH]; simpl; [reflexivity|].
  destruct (arrayIndex k1) as [n1|]; [destruct (n1 <? n)%N|]; simpl;
    try reflexivity.
  rewrite IH. now destruct (p k), (p k1).
Qed.

Lemma existsb_setKey (k k' : string) (keys : list string) :
  existsb (String.eqb k') (setKey k keys) =
  String.eqb k' k || existsb (String.eqb k') keys.
Proof.
  unfold setKey.
  destruct (existsb (String.eqb k) keys) eqn:Hin.
  - destruct (String.eqb k' k) eqn:E; [|reflexivity].
    apply String.eqb_eq in E; subst k'. now rewrite Hin.
  - destruct (arrayIndex k).
    + apply existsb_insertIndexKey.
    + rewrite existsb_app. simpl. rewrite orb_false_r. apply orb_comm.
Qed.

(** Two new array indexes find their places in either order. *)
Lemma insertIndexKey_comm (a b : string) (na nb : N) (keys : list string) :
  arrayIndex a = Some na -> arrayIndex b = Some nb -> a <> b ->
  insertIndexKey nb b (insertIndexKey na a keys) =
  insertIndexKey na a (insertIndexKey nb b keys).
Proof.
  intros Ha Hb Hab.
  assert (Hn : na <> nb).
  { intros ->. apply Hab. eapply arrayIndex_inj; eassumption. }
  induction keys as [|k1 keys IH]; simpl.
  - rewrite Ha, Hb.
    destruct (N.ltb_spec na nb), (N.ltb_spec nb na); try lia; reflexivity.
  - destruct (arrayIndex k1) as [n1|] eqn:H1.
    + destruct (N.ltb_spec n1 na), (N.ltb_spec n1 nb); simpl;
        rewrite ?H1, ?Ha, ?Hb;
        repeat match goal with
               | |- context [(?x <? ?y)%N] => destruct (N.ltb_spec x y)
               end;
        try lia; try reflexivity.
      now rewrite IH.
    + simpl. rewrite ?H1, ?Ha, ?Hb.
      destruct (N.ltb_spec na nb), (N.ltb_spec nb na); try lia; reflexivity.
Qed.

(** A new array index goes before the keys that are not array indexes. *)
Lemma insertIndexKey_app_other (n : N) (k b : string) (keys : list string) :
  arrayIndex b = None ->
  insertIndexKey n k (keys ++ [b]) = insertIndexKey n k keys ++ [b].
Proof.
  intros Hb.
  induction keys as [|k1 keys IH]; simpl.
  - now rewrite Hb.
  - destruct (arrayIndex k1) as [n1|]; [destruct (n1 <? n)%N|]; simpl;
      try reflexivity.
    now rewrite IH.
Qed.

Lemma setKey_old (k : string) (keys : list string) :
  existsb (String.eqb k) keys = true -> setKey k keys = keys.
Proof. unfold setKey. now intros ->. Qed.

Lemma setKey_new (k : string) (keys : list string) :
  existsb (String.eqb k) keys = false ->
  setKey k keys =
  match arrayIndex k with
  | Some n => insertIndexKey n k keys
  | None => keys ++ [k]
  end.
Proof. unfold setKey. now intros ->. Qed.

(** Two assignments to distinct keys give the same enumeration order in
    either order, except for two new keys that are not array indexes:
    those come last, in the order of the assignments. *)
Lemma setKey_comm (a b : string) (keys : list string) :
  a <> b ->
  setKey b (setKey a keys) = setKey a (setKey b keys)
  \/ (setKey b (setKey a keys) = keys ++ [a; b] /\
      setKey a (setKey b keys) = keys ++ [b; a]).
Proof.
  intros Hab.
  assert (Hab' : String.eqb a b = false) by now apply String.eqb_neq.
  assert (Hba' : String.eqb b a = false)
    by (rewrite String.eqb_sym; exact Hab').
  assert (Hb_in : existsb (String.eqb b) (setKey a keys) =
                  existsb (String.eqb b) keys)
    by now rewrite existsb_setKey, Hba'.
  assert (Ha_in : existsb (String.eqb a) (setKey b keys) =
                  existsb (String.eqb a) keys)
    by now rewrite existsb_setKey, Hab'.
  destruct (existsb (String.eqb a) keys) eqn:Hina;
    destruct (existsb (String.eqb b) keys) eqn:Hinb.
  - left. rewrite (setKey_old b (setKey a keys) Hb_in).
    rewrite (setKey_old a (setKey b keys) Ha_in).
    now rewrite (setKey_old a keys Hina), (setKey_old b keys Hinb).
  - left. rewrite (setKey_old a (setKey b keys) Ha_in).
    now rewrite (setKey_old a keys Hina).
  - left. rewrite (setKey_old b (setKey a keys) Hb_in).
    now rewrite (setKey_old b keys Hinb).
  - rewrite (setKey_new b (setKey a keys) Hb_in).
    rewrite (setKey_new a (setKey b keys) Ha_in).
    rewrite (setKey_new a keys Hina), (setKey_new b keys Hinb).
    destruct (arrayIndex a) as [na|] eqn:Ha;
      destruct (arrayIndex b) as [nb|] eqn:Hb.
    + left. now apply insertIndexKey_comm.
    + left. symmetry. now apply insertIndexKey_app_other.
    + left. now apply insertIndexKey_app_other.
    + right. split; now rewrite <- app_assoc.
Qed.

(* ================================================================== *)
(** * Eager loading *)
(* ================================================================== *)

Lemma modelEquiv_refl (m : Model) : modelEquiv m m.
Proof. split; reflexivity. Qed.

Lemma sameOutcome_refl (r : Result Collection) : sameOutcome r r.
Proof.
  destruct r as [models|message]; simpl; [|exact I].
  induction models; constructor; auto using modelEquiv_refl.
Qed.

Lemma matchRelation_attributes (relation : Relation) (name : string)
  (models results : Collection) :
  map attributes (matchRelation relation name models results) =
  map attributes models.
Proof.
  unfold matchRelation. rewrite map_map. apply map_ext. reflexivity.
Qed.

Lemma getRelationOf_Ok (mt : ModelType) (name : string) (r : Relation) :
  getRelationOf mt name = Ok r <-> objGet name (fields mt) = Some (Rel r).
Proof.
  unfold getRelationOf.
  destruct (objGet name (fields mt)) as [[d|r']|]; split; intros H;
    try discriminate H; now injection H as <-.
Qed.

Section EagerLoading.

Variable getEager : Database -> Relation -> Query -> Result Collection.
Variable db : Database.

Lemma eagerLoadRelation_unfold (q : Query) (models : Collection)
  (name : string) (constraints : Constraint) :
  eagerLoadRelation getEager db q models name constraints =
  (relation <- getRelationOf (model q) name ;;
   results <- getEager db relation
                       (eagerQuery db relation constraints models) ;;
   Ok (matchRelation relation name models results)).
Proof. reflexivity. Qed.

Lemma eagerLoadRelations_fold (q : Query) (models : Collection) :
  eagerLoadRelations getEager db q models =
  fold_left (loadStep getEager db q (eagerLoad q)) (objKeys (eagerLoad q))
            (Ok models).
Proof. reflexivity. Qed.

(** The loop reads the map through its keys and the query through its
    model. *)
Lemma loadStep_ext (q q' : Query) (o o' : EagerLoad) (acc : Result Collection)
  (name : string) :
  model q = model q' -> (forall k, objGet k o = objGet k o') ->
  loadStep getEager db q o acc name = loadStep getEager db q' o' acc name.
Proof.
  intros Hm Ho. unfold loadStep. rewrite Ho.
  destruct (objGet name o'); [|reflexivity].
  destruct acc; [|reflexivity]. cbn [bind].
  now rewrite !eagerLoadRelation_unfold, Hm.
Qed.

Lemma eagerQuery_attributes (relation : Relation) (constraints : Constraint)
  (models models' : Collection) :
  readsAttributesOnly relation ->
  map attributes models = map attributes models' ->
  eagerQuery db relation constraints models =
  eagerQuery db relation constraints models'.
Proof.
  intros [Hadd _] Hattrs. unfold eagerQuery.
  now rewrite (Hadd models models' Hattrs).
Qed.

(** Matching two relations of distinct names, in either order. *)
Lemma matchRelation_swap (rA rB : Relation) (A B : string)
  (models resA resB : Collection) :
  A <> B -> readsAttributesOnly rA -> readsAttributesOnly rB ->
  Forall2 modelEquiv
    (matchRelation rB B (matchRelation rA A models resA) resB)
    (matchRelation rA A (matchRelation rB B models resB) resA).
Proof.
  intros Hab [_ HrelA] [_ HrelB].
  unfold matchRelation. rewrite !map_map.
  induction models as [|m models IH]; simpl; constructor; [|exact IH].
  split.
  - reflexivity.
  - intros name. unfold setRelation. cbn [relations attributes].
    rewrite (HrelB (mkModel (attributes m) _) m resB) by reflexivity.
    rewrite (HrelA (mkModel (attributes m) _) m resA) by reflexivity.
    rewrite !objGet_objSet.
    destruct (String.eqb name B) eqn:EB; destruct (String.eqb name A) eqn:EA;
      try reflexivity.
    apply String.eqb_eq in EA, EB. congruence.
Qed.

(** Two turns of the loop, on distinct names, in either order. *)
Lemma loadStep_swap (q : Query) (o : EagerLoad) (A B : string)
  (acc : Result Collection) :
  A <> B ->
  (forall r, getRelationOf (model q) A = Ok r -> readsAttributesOnly r) ->
  (forall r, getRelationOf (model q) B = Ok r -> readsAttributesOnly r) ->
  sameOutcome
    (loadStep getEager db q o (loadStep getEager db q o acc A) B)
    (loadStep getEager db q o (loadStep getEager db q o acc B) A).
Proof.
  intros Hab HA HB. unfold loadStep.
  destruct (objGet A o) as [cA|]; destruct (objGet B o) as [cB|];
    try apply sameOutcome_refl.
  destruct acc as [models|message]; [|exact I].
  cbn [bind]. rewrite !eagerLoadRelation_unfold.
  destruct (getRelationOf (model q) A) as [rA|mA] eqn:HrA.
  2:{ cbn [bind].
      destruct (getRelationOf (model q) B) as [rB|mB]; cbn [bind].
      - destruct (getEager db rB _); cbn [bind].
        + rewrite eagerLoadRelation_unfold, HrA. exact I.
        + exact I.
      - exact I. }
  destruct (getRelationOf (model q) B) as [rB|mB] eqn:HrB.
  2:{ cbn [bind].
      destruct (getEager db rA _); cbn [bind].
      - rewrite eagerLoadRelation_unfold, HrB. exact I.
      - exact I. }
  specialize (HA rA eq_refl). specialize (HB rB eq_refl).
  cbn [bind].
  destruct (getEager db rA (eagerQuery db rA cA models)) as [resA|msgA] eqn:EA;
    destruct (getEager db rB (eagerQuery db rB cB models)) as [resB|msgB] eqn:EB;
    cbn [bind]; rewrite ?eagerLoadRelation_unfold, ?HrA, ?HrB; cbn [bind].
  - rewrite (eagerQuery_attributes rB cB _ models HB
               (matchRelation_attributes rA A models resA)).
    rewrite (eagerQuery_attributes rA cA _ models HA
               (matchRelation_attributes rB B models resB)).
    rewrite EA, EB. cbn [bind sameOutcome].
    now apply matchRelation_swap.
  - rewrite (eagerQuery_attributes rB cB _ models HB
               (matchRelation_attributes rA A models resA)).
    rewrite EB. exact I.
  - rewrite (eagerQuery_attributes rA cA _ models HA
               (matchRelation_attributes rB B models resB)).
    rewrite EA. exact I.
  - exact I.
Qed.

End EagerLoading.

Lemma select_with (orderBy :
    Collection -> list OrderBy -> list OrderDirection -> Collection)
  (db : Database) (q : Query) (name : string) (c : Constraint) :
  select orderBy db (with_ q name c) = select orderBy db q.
Proof. reflexivity. Qed.

(** C10. Registering [with(A)] then [with(B)], for distinct relation
    names, and executing [get()] gives the same outcome as registering
    [with(B)] then [with(A)]: both calls raise, or both return the same
    models with the same relation attributes attached.  The relations
    are taken to read the stored attributes of the parent models, as the
    relation classes do. *)
Theorem eager_loading_order_independent
  (orderBy : Collection -> list OrderBy -> list OrderDirection -> Collection)
  (getEager : Database -> Relation -> Query -> Result Collection)
  (db : Database) (q : Query) (A B : string) (cA cB : Constraint) :
  A <> B ->
  (forall r, getRelationOf (model q) A = Ok r -> readsAttributesOnly r) ->
  (forall r, getRelationOf (model q) B = Ok r -> readsAttributesOnly r) ->
  sameOutcome
    (get orderBy getEager db (with_ (with_ q A cA) B cB))
    (get orderBy getEager db (with_ (with_ q B cB) A cA)).
Proof.
  intros Hab HA HB. unfold get.
  rewrite !select_with.
  destruct (negb (isEmpty (select orderBy db q))); [|apply sameOutcome_refl].
  rewrite !eagerLoadRelations_fold.
  set (models := select orderBy db q).
  set (o1 := eagerLoad (with_ (with_ q A cA) B cB)).
  set (o2 := eagerLoad (with_ (with_ q B cB) A cA)).
  assert (Hget : forall k, objGet k o2 = objGet k o1).
  { intros k. unfold o1, o2. cbn [eagerLoad with_].
    rewrite !objGet_objSet.
    destruct (String.eqb k A) eqn:EA; destruct (String.eqb k B) eqn:EB;
      try reflexivity.
    apply String.eqb_eq in EA, EB. congruence. }
  rewrite (fold_left_pointwise
             (loadStep getEager db (with_ (with_ q A cA) B cB) o1)
             (loadStep getEager db q o1))
    by (intros; now apply loadStep_ext).
  rewrite (fold_left_pointwise
             (loadStep getEager db (with_ (with_ q B cB) A cA) o2)
             (loadStep getEager db q o1))
    by (intros; now apply loadStep_ext).
  assert (Hk1 : objKeys o1 = setKey B (setKey A (objKeys (eagerLoad q))))
    by (unfold o1; cbn [eagerLoad with_]; now rewrite !objKeys_objSet).
  assert (Hk2 : objKeys o2 = setKey A (setKey B (objKeys (eagerLoad q))))
    by (unfold o2; cbn [eagerLoad with_]; now rewrite !objKeys_objSet).
  rewrite Hk1, Hk2.
  destruct (setKey_comm A B (objKeys (eagerLoad q)) Hab) as [Heq|[H1 H2]].
  - rewrite Heq. apply sameOutcome_refl.
  - rewrite H1, H2, !fold_left_app. cbn [fold_left].
    now apply loadStep_swap.
Qed.

Lemma getProp_attributes (m m' : Model) (key : string) :
  attributes m = attributes m' -> getProp m key = getProp m' key.
Proof. unfold getProp. now intros ->. Qed.

Lemma map_getProp_attributes (models models' : Collection) (key : string) :
  map attributes models = map attributes models' ->
  map (fun m => getProp m key) models = map (fun m => getProp m key) models'.
Proof.
  revert models'.
  induction models as [|m models IH]; intros [|m' models'] H;
    try discriminate H; [reflexivity|].
  simpl in *. injection H as Hm Hrest.
  now rewrite (getProp_attributes m m' key Hm), (IH models' Hrest).
Qed.

(** The standard relations read the keys of the parents from their
    stored attributes. *)
Lemma hasMany_readsAttributesOnly (related foreignKey localKey : string) :
  readsAttributesOnly (Standard.hasMany related foreignKey localKey).
Proof.
  split; simpl.
  - intros models models' H.
    now rewrite (map_getProp_attributes models models' localKey H).
  - intros m m' results H.
    now rewrite (getProp_attributes m m' localKey H).
Qed.

Lemma belongsTo_readsAttributesOnly (related foreignKey ownerKey : string) :
  readsAttributesOnly (Standard.belongsTo related foreignKey ownerKey).
Proof.
  split; simpl.
  - intros models models' H.
    now rewrite (map_getProp_attributes models models' foreignKey H).
  - intros m m' results H.
    now rewrite (getProp_attributes m m' foreignKey H).
Qed.

Lemma eager_loading_order_independent_witness :
  sameOutcome
    (get Standard.orderBy (Standard.getEager 3) Example.blog
         Example.postsThenComments)
    (get Standard.orderBy (Standard.getEager 3) Example.blog
         Example.commentsThenPosts).
Proof.
  apply (eager_loading_order_independent Standard.orderBy
           (Standard.getEager 3) Example.blog (newQueryOf Example.User)
           "posts" "comments" NoConstraint NoConstraint).
  - discriminate.
  - intros r H.
    change (Ok (Standard.hasMany "posts" "userId" "id") = Ok r) in H.
    injection H as <-. apply hasMany_readsAttributesOnly.
  - intros r H.
    change (Ok (Standard.hasMany "comments" "userId" "id") = Ok r) in H.
    injection H as <-. apply hasMany_readsAttributesOnly.
Defined.

(** Both orders attach to user 1 the posts 10 and 11 and the comment
    100. *)
Example eager_loading_both_orders :
  forall q, q = Example.postsThenComments \/ q = Example.commentsThenPosts ->
  exists u1 u2 p10 p11 c100,
    get Standard.orderBy (Standard.getEager 3) Example.blog q = Ok [u1; u2]
    /\ objGet "posts" (relations u1) = Some (RMany [p10; p11])
    /\ objGet "comments" (relations u1) = Some (RMany [c100])
    /\ Example.idsOf [u1; u2; p10; p11; c100]
       = [VNum 1; VNum 2; VNum 10; VNum 11; VNum 100].
Proof.
  intros q [-> | ->]; do 5 eexists;
    (split; [vm_compute; reflexivity|]); repeat split.
Qed.

(* ================================================================== *)
(** * The clauses of the specification's example *)
(* ================================================================== *)

(** With [where('active', true)] and [orWhere('name', 'Jane')] the
    model that is not active and is named Jane is kept, the one named
    John is not. *)
Lemma filterWhere_includes_witness :
  In Example.jane
     (filterWhere Example.activeOrJane [Example.jane; Example.john])
  /\ ~ In Example.john
       (filterWhere Example.activeOrJane [Example.jane; Example.john]).
Proof.
  split.
  - apply (proj2 (filterWhere_includes Example.activeOrJane
                    [Example.jane; Example.john] Example.jane)).
    split; [now left|].
    right; right. split; [discriminate|].
    eexists. split; [left; reflexivity | reflexivity].
  - intros H.
    apply (proj1 (filterWhere_includes Example.activeOrJane
                    [Example.jane; Example.john] Example.john)) in H.
    destruct H as [_ [H | [[_ H] | [_ [w [Hw H]]]]]].
    + discriminate H.
    + specialize (H _ (or_introl eq_refl)). discriminate H.
    + destruct Hw as [<- | []]. discriminate H.
Defined.

Lemma whereComparator_priority_witness :
  whereComparator Example.jane
    (mkWhere (FieldName "name") (Val (VStr "Jane")) And)
  = strictEq (getProp Example.jane "name") (VStr "Jane").
Proof.
  apply (whereComparator_priority Example.jane
           (mkWhere (FieldName "name") (Val (VStr "Jane")) And));
    reflexivity.
Defined.

(* ================================================================== *)
(** * Chaining where clauses *)
(* ================================================================== *)

Lemma filterWhere_keeps (q : Query) (models : Collection) (m : Model) :
  In m (filterWhere q models) <-> In m models /\ keeps q m = true.
Proof. rewrite filterWhere_filter, filter_In. reflexivity. Qed.

Lemma filter_twice {A : Type} (p : A -> bool) (xs : list A) :
  filter p (filter p xs) = filter p xs.
Proof.
  induction xs as [|x xs IH]; simpl; [reflexivity|].
  destruct (p x) eqn:E; simpl; rewrite ?E, IH; reflexivity.
Qed.

(** X1. Filtering a second time by the same clauses changes nothing. *)
Theorem filterWhere_idempotent (q : Query) (models : Collection) :
  filterWhere q (filterWhere q models) = filterWhere q models.
Proof.
  rewrite !filterWhere_filter. apply filter_twice.
Qed.

Lemma andGroup_where (q : Query) (f : FieldSlot) (v : ValueSlot) :
  andGroup (where_ q f v) = andGroup q ++ [mkWhere f v And]
  /\ orGroup (where_ q f v) = orGroup q.
Proof.
  unfold andGroup, orGroup. cbn [where_ pushWhere wheres].
  rewrite !filter_app. cbn. now rewrite app_nil_r.
Qed.

Lemma orGroup_orWhere (q : Query) (f : FieldSlot) (v : ValueSlot) :
  andGroup (orWhere q f v) = andGroup q
  /\ orGroup (orWhere q f v) = orGroup q ++ [mkWhere f v Or].
Proof.
  unfold andGroup, orGroup. cbn [orWhere pushWhere wheres].
  rewrite !filter_app. cbn. now rewrite app_nil_r.
Qed.

Lemma isEmpty_app_one {A : Type} (xs : list A) (x : A) :
  isEmpty (xs ++ [x]) = false.
Proof. now destruct xs. Qed.

(** A query without clauses has no groups; a query with clauses has at
    least one. *)
Lemma groups_empty (q : Query) :
  isEmpty (wheres q) = isEmpty (andGroup q) && isEmpty (orGroup q).
Proof.
  unfold andGroup, orGroup, isAnd, isOr.
  destruct (wheres q) as [|w ws]; [reflexivity|].
  cbn [filter isEmpty]. destruct (boolean w); cbn [isEmpty andb];
    now rewrite ?andb_false_r.
Qed.

Lemma keeps_groups (q : Query) (m : Model) :
  keeps q m =
  (isEmpty (andGroup q) && isEmpty (orGroup q))
  || (negb (isEmpty (andGroup q)) && forallb (whereComparator m) (andGroup q))
  || existsb (whereComparator m) (orGroup q).
Proof.
  unfold keeps. rewrite groups_empty, getWhereComparator_groups.
  destruct (andGroup q), (orGroup q); cbn; rewrite ?orb_false_r; reflexivity.
Qed.

(** X2. Chaining [where]: while the query has no or-clause, the new clause
    intersects (also on a query without clauses); when the query has
    or-clauses only, the new clause forms the and-group alone and adds
    its matches; in every case where an and-group exists, it removes
    models and adds none. *)
Theorem where_chain (q : Query) (f : FieldSlot) (v : ValueSlot)
  (models : Collection) (m : Model) :
  let w := mkWhere f v And in
  (orGroup q = [] ->
   (In m (filterWhere (where_ q f v) models) <->
    In m (filterWhere q models) /\ whereComparator m w = true))
  /\ (andGroup q = [] -> orGroup q <> [] ->
      (In m (filterWhere (where_ q f v) models) <->
       In m (filterWhere q models)
       \/ (In m models /\ whereComparator m w = true)))
  /\ (andGroup q <> [] ->
      In m (filterWhere (where_ q f v) models) ->
      In m (filterWhere q models)).
Proof.
  intros w.
  destruct (andGroup_where q f v) as [Ha Ho].
  assert (Hk : keeps (where_ q f v) m =
               (forallb (whereComparator m) (andGroup q)
                && whereComparator m w)
               || existsb (whereComparator m) (orGroup q)).
  { rewrite keeps_groups, Ha, Ho, isEmpty_app_one, forallb_app.
    cbn. now rewrite andb_true_r. }
  pose proof (keeps_groups q m) as Hq.
  rewrite !filterWhere_keeps, Hk, Hq.
  split; [|split].
  - intros Hor. rewrite Hor. cbn. rewrite !orb_false_r.
    destruct (andGroup q); cbn; [tauto|].
    rewrite !andb_true_iff. tauto.
  - intros Hand Hor. rewrite Hand.
    destruct (orGroup q) as [|o os]; [contradiction|]. cbn [isEmpty].
    cbn. rewrite !orb_true_iff. tauto.
  - intros Hand [Hin Hkeep]. split; [exact Hin|].
    destruct (andGroup q) as [|a ands]; [contradiction|].
    cbn [isEmpty negb andb orb].
    apply orb_true_iff in Hkeep. apply orb_true_iff.
    destruct Hkeep as [Hkeep|Hkeep]; [left | now right].
    now apply andb_true_iff in Hkeep.
Qed.

Lemma where_chain_witness :
  In Example.jane
     (filterWhere (where_ (newQueryOf Example.User) (FieldName "name")
                          (Val (VStr "Jane")))
                  [Example.jane; Example.john])
  <-> In Example.jane
         (filterWhere (newQueryOf Example.User) [Example.jane; Example.john])
      /\ whereComparator Example.jane
           (mkWhere (FieldName "name") (Val (VStr "Jane")) And) = true.
Proof.
  apply (proj1 (where_chain (newQueryOf Example.User) (FieldName "name")
                  (Val (VStr "Jane")) [Example.jane; Example.john]
                  Example.jane)).
  reflexivity.
Defined.

(** X3. Chaining [orWhere]: on a query with clauses the new clause adds its
    matches to the result; on a query without clauses it is the only
    clause and restricts the result to its matches. *)
Theorem orWhere_chain (q : Query) (f : FieldSlot) (v : ValueSlot)
  (models : Collection) (m : Model) :
  let w := mkWhere f v Or in
  (wheres q <> [] ->
   (In m (filterWhere (orWhere q f v) models) <->
    In m (filterWhere q models)
    \/ (In m models /\ whereComparator m w = true)))
  /\ (wheres q = [] ->
      (In m (filterWhere (orWhere q f v) models) <->
       In m models /\ whereComparator m w = true)).
Proof.
  intros w.
  destruct (orGroup_orWhere q f v) as [Ha Ho].
  assert (Hk : keeps (orWhere q f v) m =
               (negb (isEmpty (andGroup q))
                && forallb (whereComparator m) (andGroup q))
               || (existsb (whereComparator m) (orGroup q)
                   || whereComparator m w)).
  { rewrite keeps_groups, Ha, Ho, isEmpty_app_one, existsb_app.
    cbn. now rewrite andb_false_r, orb_false_r. }
  pose proof (keeps_groups q m) as Hq.
  pose proof (groups_empty q) as He.
  rewrite !filterWhere_keeps, Hk, Hq.
  split.
  - intros Hne.
    destruct (wheres q) as [|w0 ws]; [contradiction|]. cbn [isEmpty] in He.
    rewrite <- He. cbn [orb]. rewrite !orb_true_iff. tauto.
  - intros Hnil. rewrite Hnil in He. cbn [isEmpty] in He.
    symmetry in He. apply andb_true_iff in He. destruct He as [Hea Heo].
    destruct (andGroup q); [|discriminate Hea].
    destruct (orGroup q); [|discriminate Heo].
    cbn. tauto.
Qed.

Lemma orWhere_chain_witness :
  In Example.jane
     (filterWhere (orWhere (newQueryOf Example.User) (FieldName "name")
                           (Val (VStr "Jane")))
                  [Example.jane; Example.john])
  <-> In Example.jane [Example.jane; Example.john]
      /\ whereComparator Example.jane
           (mkWhere (FieldName "name") (Val (VStr "Jane")) Or) = true.
Proof.
  apply (orWhere_chain (newQueryOf Example.User) (FieldName "name")
           (Val (VStr "Jane")) [Example.jane; Example.john] Example.jane).
  reflexivity.
Defined.

(* ================================================================== *)
(** * Limit and offset *)
(* ================================================================== *)

Lemma segment_firstn_skipn {A : Type} (xs : list A) (j k : nat) :
  xs = firstn j xs ++ firstn k (skipn j xs) ++ skipn k (skipn j xs).
Proof. now rewrite (firstn_skipn k), (firstn_skipn j). Qed.

(** X4. [filterLimit] returns a stretch of consecutive models of the
    collection, in their order, and never more than a limit that is not
    negative. *)
Theorem filterLimit_segment (q : Query) (models : Collection) :
  (exists before after,
      models = before ++ filterLimit q models ++ after)
  /\ (forall n,
        take q = Some n -> 0 <= n ->
        Z.of_nat (length (filterLimit q models)) <= n).
Proof.
  split.
  - unfold filterLimit, slice.
    destruct (take q) as [n|]; do 2 eexists; apply segment_firstn_skipn.
  - intros n Htake Hn. unfold filterLimit, slice. rewrite Htake.
    rewrite length_firstn, length_skipn.
    set (len := Z.of_nat (length models)).
    assert (Hlen : 0 <= len) by (unfold len; lia).
    destruct (skip q <? 0) eqn:E1; destruct (skip q + n <? 0) eqn:E2; lia.
Qed.

Lemma filterLimit_segment_witness :
  Z.of_nat (length (filterLimit pagedQuery
                                (all Example.tenUsers
                                     (newQueryOf Example.User)))) <= 3.
Proof.
  apply (filterLimit_segment pagedQuery
           (all Example.tenUsers (newQueryOf Example.User))).
  - reflexivity.
  - lia.
Defined.

(** X5. With an offset that is not negative, [filterLimit] skips [offset]
    models and takes the next [limit]; without limit it takes all that
    remain, and nothing when the offset reaches the length. *)
Theorem filterLimit_page (q : Query) (models : Collection) :
  0 <= skip q ->
  (forall n,
      take q = Some n -> 0 <= n ->
      filterLimit q models =
      firstn (Z.to_nat n) (skipn (Z.to_nat (skip q)) models))
  /\ (take q = None ->
      filterLimit q models = skipn (Z.to_nat (skip q)) models)
  /\ (Z.of_nat (length models) <= skip q -> filterLimit q models = []).
Proof.
  intros Hskip. split; [|split].
  - intros n Htake Hn. unfold filterLimit. rewrite Htake.
    now apply slice_firstn_skipn.
  - intros Htake. unfold filterLimit. rewrite Htake.
    now apply slice_skipn.
  - intros Hlen. unfold filterLimit, slice.
    destruct (skip q <? 0) eqn:E; [lia|].
    rewrite skipn_all2 by lia.
    destruct (take q); apply firstn_nil.
Qed.

Lemma filterLimit_page_witness :
  filterLimit pagedQuery [Example.jane; Example.john; Example.jane]
  = firstn 3 (skipn 2 [Example.jane; Example.john; Example.jane]).
Proof.
  assert (Hskip : 0 <= skip pagedQuery) by (cbn; lia).
  apply (proj1 (filterLimit_page pagedQuery
                  [Example.jane; Example.john; Example.jane] Hskip) 3).
  - reflexivity.
  - lia.
Defined.

(** X6. A negative offset counts from the end: without limit the last
    [-offset] models are returned; with a limit that reaches to or past
    the start of the collection and does not exceed its length, nothing
    is returned. *)
Theorem filterLimit_negative_offset (q : Query) (models : Collection) :
  skip q < 0 ->
  (take q = None ->
   filterLimit q models =
   skipn (length models - Z.to_nat (- skip q)) models)
  /\ (forall n,
        take q = Some n -> 0 <= skip q + n ->
        n <= Z.of_nat (length models) ->
        filterLimit q models = []).
Proof.
  intros Hskip. split.
  - intros Htake. unfold filterLimit, slice. rewrite Htake.
    destruct (skip q <? 0) eqn:E; [|lia].
    replace (Z.to_nat (Z.max (Z.of_nat (length models) + skip q) 0))
      with (length models - Z.to_nat (- skip q))%nat by lia.
    apply firstn_all2. rewrite length_skipn. lia.
  - intros n Htake He Hn. unfold filterLimit, slice. rewrite Htake.
    destruct (skip q <? 0) eqn:E1; [|lia].
    destruct (skip q + n <? 0) eqn:E2; [lia|].
    replace (Z.to_nat _) with 0%nat by lia. reflexivity.
Qed.

Lemma filterLimit_negative_offset_witness :
  filterLimit (offset (newQueryOf Example.User) (-1))
              [Example.jane; Example.john]
  = skipn (2 - Z.to_nat (- -1)) [Example.jane; Example.john].
Proof.
  assert (Hskip : skip (offset (newQueryOf Example.User) (-1)) < 0)
    by (cbn; lia).
  apply (proj1 (filterLimit_negative_offset
                  (offset (newQueryOf Example.User) (-1))
                  [Example.jane; Example.john] Hskip)).
  reflexivity.
Defined.

(* ================================================================== *)
(** * Retrieval by key *)
(* ================================================================== *)

Lemma hd_error_firstn_one {A : Type} (xs : list A) :
  hd_error (firstn 1 xs) = hd_error xs.
Proof. now destruct xs. Qed.

Lemma hd_error_filter {A : Type} (p : A -> bool) (xs : list A) :
  hd_error (filter p xs) = List.find p xs.
Proof.
  induction xs as [|x xs IH]; simpl; [reflexivity|].
  now destruct (p x).
Qed.

Section RetrievalByKey.

Variable orderBy :
  Collection -> list OrderBy -> list OrderDirection -> Collection.
Variable getEager : Database -> Relation -> Query -> Result Collection.

(** X7. [first()] returns the first model of the filtered and ordered
    collection after the offset, or null when there is none; a limit set
    before is replaced, not respected. *)
Theorem first_returns_head (db : Database) (q : Query) :
  eagerLoad q = [] -> 0 <= skip q ->
  snd (first orderBy getEager db q) =
  Ok (hd_error (skipn (Z.to_nat (skip q))
                      (filterOrder orderBy q (filterWhere q (all db q)))))
  /\ forall n,
      first orderBy getEager db (limit q n) = first orderBy getEager db q.
Proof.
  intros He Hskip. split; [|reflexivity].
  unfold first. cbn [snd].
  rewrite (get_without_eagerLoad orderBy getEager db (limit q 1) He).
  cbn [bind]. f_equal.
  rewrite select_pipeline.
  change (filterOrder orderBy (limit q 1)
            (filterWhere (limit q 1) (all db (limit q 1))))
    with (filterOrder orderBy q (filterWhere q (all db q))).
  unfold filterLimit. cbn [take skip limit].
  rewrite slice_firstn_skipn by lia.
  apply hd_error_firstn_one.
Qed.

(** The selection of [find(id)] on a query as constructed. *)
Lemma select_whereId_new (db : Database) (mt : ModelType) (id : Value) :
  isArray id = false ->
  select orderBy db (limit (whereId (newQueryOf mt) id) 1) =
  firstn 1 (filter (fun m => strictEq (keyOf mt m) id)
                   (all db (newQueryOf mt))).
Proof.
  intros Harr. rewrite select_pipeline.
  unfold filterLimit, filterOrder.
  cbn [take skip orders limit whereId where_ pushWhere newQueryOf length
       Z.of_nat Z.eqb].
  rewrite (slice_firstn_skipn _ 0 1) by lia.
  cbn [Z.to_nat skipn]. f_equal.
  rewrite filterWhere_filter.
  change (all db _) with (all db (newQueryOf mt)).
  apply filter_ext. intros m.
  rewrite getWhereComparator_groups.
  unfold andGroup, orGroup, keyOf, whereComparator.
  cbn [wheres limit whereId where_ pushWhere newQueryOf app filter isAnd isOr
       boolean isEmpty negb forallb existsb andb orb field value model].
  rewrite andb_true_r, orb_false_r.
  destruct id; try reflexivity. discriminate Harr.
Qed.

Lemma find_id_new_result (db : Database) (mt : ModelType) (id : Value) :
  isArray id = false ->
  find orderBy getEager db (newQueryOf mt) id =
  (limit (whereId (newQueryOf mt) id) 1,
   Ok (AnItem (List.find (fun m => strictEq (keyOf mt m) id)
                         (all db (newQueryOf mt))))).
Proof.
  intros Harr.
  assert (Hfirst : first orderBy getEager db (whereId (newQueryOf mt) id) =
                   (limit (whereId (newQueryOf mt) id) 1,
                    Ok (List.find (fun m => strictEq (keyOf mt m) id)
                                  (all db (newQueryOf mt))))).
  { unfold first. f_equal.
    rewrite get_without_eagerLoad by reflexivity.
    rewrite (select_whereId_new db mt id Harr). cbn [bind].
    now rewrite hd_error_firstn_one, hd_error_filter. }
  unfold find. rewrite Hfirst.
  destruct id; try reflexivity. discriminate Harr.
Qed.

(** X8. [find(id)] with one id, on a query as constructed, never raises and
    returns the first model of the store whose value under the
    primary-key name is strictly equal to the id, or null when there is
    none. *)
Theorem find_id_returns_first_match (db : Database) (mt : ModelType)
  (id : Value) :
  isArray id = false ->
  exists item,
    snd (find orderBy getEager db (newQueryOf mt) id) = Ok (AnItem item)
    /\ item = List.find (fun m => strictEq (keyOf mt m) id)
                        (all db (newQueryOf mt))
    /\ (forall m, item = Some m ->
                  In m (all db (newQueryOf mt))
                  /\ strictEq (keyOf mt m) id = true)
    /\ (item = None ->
        forall m, In m (all db (newQueryOf mt)) ->
                  strictEq (keyOf mt m) id = false).
Proof.
  intros Harr. eexists. rewrite (find_id_new_result db mt id Harr).
  split; [reflexivity|]. split; [reflexivity|]. split.
  - intros m Hm. now apply find_some in Hm.
  - intros Hnone m Hin. exact (find_none _ _ Hnone m Hin).
Qed.

(** X9. [destroy(id)] with one id, on a query as constructed for a model
    whose key is not composite: the first model whose key is strictly
    equal to the id is handed to the connection by its index id and
    returned; when there is none the result is null and the store is
    not written. *)
Theorem destroy_id_removes_first_match (db : Database) (mt : ModelType)
  (id : Value) :
  isArray id = false -> hasCompositeKey mt = false ->
  destroy orderBy getEager db (newQueryOf mt) id =
  match List.find (fun m => strictEq (keyOf mt m) id)
                  (all db (newQueryOf mt)) with
  | Some found =>
      (connDestroy db mt [getIndexId mt (attributes found)],
       limit (whereId (newQueryOf mt) id) 1,
       Ok (AnItem (Some found)))
  | None =>
      (db, limit (whereId (newQueryOf mt) id) 1, Ok (AnItem None))
  end.
Proof.
  intros Harr Hkey. unfold destroy, assert.
  cbn [model newQueryOf]. rewrite Hkey, Harr. cbn [negb].
  unfold destroyOne. rewrite (find_id_new_result db mt id Harr).
  now destruct (List.find _ _).
Qed.

(** X10. [destroy(ids)] with an array of ids, on a query as constructed for
    a model whose key is not composite: the models whose key is a member
    of the array are handed to the connection by their index ids, in one
    call, and returned; when there is none the result is empty and the
    store is not written. *)
Theorem destroy_ids_removes_members (db : Database) (mt : ModelType)
  (ids : list Value) :
  hasCompositeKey mt = false ->
  let matched := filter (fun m => includes ids (keyOf mt m))
                        (all db (newQueryOf mt)) in
  destroy orderBy getEager db (newQueryOf mt) (VArr ids) =
  (if isEmpty matched then db
   else connDestroy db mt
          (map (fun m => getIndexId mt (attributes m)) matched),
   whereId (newQueryOf mt) (VArr ids),
   Ok (ACollection matched)).
Proof.
  intros Hkey matched. unfold destroy, assert.
  cbn [model newQueryOf]. rewrite Hkey. cbn [negb isArray].
  unfold destroyMany, find.
  pose proof (findIn_new orderBy getEager db mt ids) as H.
  destruct (findIn orderBy getEager db (newQueryOf mt) ids) as [q' r] eqn:E.
  cbn [snd] in H. subst r.
  assert (Hq : q' = whereId (newQueryOf mt) (VArr ids)).
  { unfold findIn in E. now injection E as <- _. }
  subst q'. cbn [bind]. fold matched.
  destruct matched; reflexivity.
Qed.

End RetrievalByKey.

Lemma first_returns_head_witness :
  snd (first Standard.orderBy (Standard.getEager 3) Example.twoUsers
             (newQueryOf Example.User))
  = Ok (hd_error
          (skipn (Z.to_nat 0)
                 (filterOrder Standard.orderBy (newQueryOf Example.User)
                    (filterWhere (newQueryOf Example.User)
                       (all Example.twoUsers (newQueryOf Example.User)))))).
Proof.
  apply (first_returns_head Standard.orderBy (Standard.getEager 3)
           Example.twoUsers (newQueryOf Example.User)).
  - reflexivity.
  - cbn. lia.
Defined.

Lemma find_id_returns_first_match_witness :
  exists item,
    snd (find Standard.orderBy (Standard.getEager 3) Example.twoUsers
              (newQueryOf Example.User) (VNum 2)) = Ok (AnItem item)
    /\ item = Some (mkModel [("id", VNum 2); ("name", VStr "user2")] []).
Proof.
  destruct (find_id_returns_first_match Standard.orderBy
              (Standard.getEager 3) Example.twoUsers Example.User (VNum 2)
              eq_refl) as [item [Hfind [Hitem _]]].
  exists item. split; [exact Hfind|]. rewrite Hitem. reflexivity.
Defined.

Lemma destroy_id_removes_first_match_witness :
  destroy Standard.orderBy (Standard.getEager 3) Example.twoUsers
          (newQueryOf Example.User) (VStr "1")
  = (Example.twoUsers, limit (whereId (newQueryOf Example.User) (VStr "1")) 1,
     Ok (AnItem None)).
Proof.
  rewrite (destroy_id_removes_first_match Standard.orderBy
             (Standard.getEager 3) Example.twoUsers Example.User (VStr "1")
             eq_refl eq_refl).
  reflexivity.
Defined.

Lemma destroy_ids_removes_members_witness :
  let '(db, _, r) :=
    destroy Standard.orderBy (Standard.getEager 3) Example.twoUsers
            (newQueryOf Example.User) (VArr [VNum 2; VNum 999]) in
  objKeys (connGet db Example.User) = ["1"]
  /\ r = Ok (ACollection
               [mkModel [("id", VNum 2); ("name", VStr "user2")] []]).
Proof.
  rewrite (destroy_ids_removes_members Standard.orderBy
             (Standard.getEager 3) Example.twoUsers Example.User
             [VNum 2; VNum 999] eq_refl).
  vm_compute. split; reflexivity.
Defined.

(* ================================================================== *)
(** * Reviving from the store *)
(* ================================================================== *)

Lemma reviveRelationsFrom_attributes (db : Database) (mt : ModelType)
  (props : list (string * Value)) (m : Model) :
  attributes (reviveRelationsFrom db mt props m) = attributes m.
Proof.
  revert m. induction props as [|[key sub] rest IH]; intros m;
    cbn [reviveRelationsFrom]; [reflexivity|].
  destruct (objGet key (fields mt)) as [[d|attr]|]; try apply IH.
  destruct (falsy sub); [reflexivity|].
  now rewrite IH.
Qed.

(** The loop of [reviveRelations] assigns only keys of the schema. *)
Lemma reviveRelationsFrom_other (db : Database) (mt : ModelType)
  (props : list (string * Value)) (m : Model) (key : string) :
  ~ In key (map fst props) ->
  objGet key (relations (reviveRelationsFrom db mt props m)) =
  objGet key (relations m).
Proof.
  revert m. induction props as [|[k1 s1] rest IH]; intros m Hnot;
    cbn [reviveRelationsFrom]; [reflexivity|].
  cbn [map fst In] in Hnot.
  assert (Hne : key <> k1) by (intros ->; apply Hnot; now left).
  assert (Hrest : ~ In key (map fst rest)) by (intros H; apply Hnot; now right).
  destruct (objGet k1 (fields mt)) as [[d|attr]|]; try now apply IH.
  destruct (falsy s1); [reflexivity|].
  rewrite (IH _ Hrest). cbn [setRelation relations].
  now apply objGet_objSet_other.
Qed.

(** X11. [reviveOne] is null exactly when the store has no record under the
    index id of the schema; otherwise the attributes of the model are
    those of the stored record, whatever the schema holds. *)
Theorem reviveOne_reads_store (db : Database) (mt : ModelType)
  (schema : Value) :
  (reviveOne db mt schema = None <->
   connFind db mt (getIndexId mt (propsOf schema)) = None)
  /\ (forall m,
        reviveOne db mt schema = Some m ->
        exists item,
          connFind db mt (getIndexId mt (propsOf schema)) = Some item /\
          attributes m = newInstance mt item).
Proof.
  rewrite reviveOne_unfold.
  destruct (connFind db mt (getIndexId mt (propsOf schema))) as [item|].
  - split; [split; discriminate|].
    intros m Hm. injection Hm as <-. exists item. split; [reflexivity|].
    unfold reviveRelations. now rewrite reviveRelationsFrom_attributes.
  - split; [split; reflexivity | discriminate].
Qed.

(** X12. [reviveMany] returns, in order, the models of the elements that
    [reviveOne] finds: elements that are gone from the store are left
    out, and the schema of a concatenation revives to the
    concatenation. *)
Theorem reviveMany_members (db : Database) (mt : ModelType)
  (items : list Value) :
  (forall m,
      In m (reviveMany db mt items) <->
      exists item, In item items /\ reviveOne db mt item = Some m)
  /\ (length (reviveMany db mt items) <= length items)%nat
  /\ (forall more,
        reviveMany db mt (items ++ more) =
        reviveMany db mt items ++ reviveMany db mt more).
Proof.
  split; [|split].
  - intros m. induction items as [|item items IH].
    + split; [intros [] | intros [item [[] _]]].
    + rewrite reviveMany_cons.
      destruct (reviveOne db mt item) as [x|] eqn:E.
      * cbn [In]. rewrite IH. split.
        -- intros [<- | [item' [Hin Hr]]].
           ++ exists item. split; [now left | exact E].
           ++ exists item'. split; [now right | exact Hr].
        -- intros [item' [[<- | Hin] Hr]].
           ++ left. congruence.
           ++ right. now exists item'.
      * rewrite IH. split.
        -- intros [item' [Hin Hr]]. exists item'. split; [now right|exact Hr].
        -- intros [item' [[<- | Hin] Hr]]; [congruence|]. now exists item'.
  - induction items as [|item items IH]; [reflexivity|].
    rewrite reviveMany_cons. destruct (reviveOne db mt item); cbn; lia.
  - intros more. induction items as [|item items IH]; [reflexivity|].
    cbn [app]. rewrite !reviveMany_cons, IH.
    now destruct (reviveOne db mt item).
Qed.

(** X13. When none of the relation fields of the schema holds a falsy value,
    [reviveRelations] assigns every one of them, each with the revival
    of its related schema, and leaves the attributes and the other
    relation attributes of the model as they are. *)
Theorem reviveRelations_attaches_all (db : Database) (mt : ModelType)
  (props : list (string * Value)) (m : Model) :
  NoDup (map fst props) ->
  (forall key sub attr,
      In (key, sub) props -> objGet key (fields mt) = Some (Rel attr) ->
      falsy sub = false) ->
  (forall key sub attr,
      In (key, sub) props -> objGet key (fields mt) = Some (Rel attr) ->
      objGet key (relations (reviveRelations db mt m (VObj props))) =
      Some (revivedRelation db attr sub))
  /\ (forall key,
        ~ In key (map fst props) ->
        objGet key (relations (reviveRelations db mt m (VObj props))) =
        objGet key (relations m))
  /\ attributes (reviveRelations db mt m (VObj props)) = attributes m.
Proof.
  intros Hnodup Htruthy. unfold reviveRelations. cbn [propsOf].
  split; [|split].
  - revert m Hnodup Htruthy.
    induction props as [|[k1 s1] rest IH]; intros m Hnodup Htruthy key sub
      attr Hin Hrel; [destruct Hin|].
    cbn [map fst] in Hnodup. inversion Hnodup as [|? ? Hnotin Hnodup']; subst.
    cbn [reviveRelationsFrom].
    destruct Hin as [Heq | Hin].
    + injection Heq as -> ->.
      rewrite Hrel, (Htruthy key sub attr (or_introl eq_refl) Hrel).
      rewrite (reviveRelationsFrom_other db mt rest _ key Hnotin).
      cbn [setRelation relations]. now rewrite objGet_objSet_same.
    + assert (Hrest : forall key sub attr,
                 In (key, sub) rest ->
                 objGet key (fields mt) = Some (Rel attr) ->
                 falsy sub = false)
        by (intros; eapply Htruthy; [right|]; eassumption).
      destruct (objGet k1 (fields mt)) as [[d|attr1]|] eqn:E1;
        try now apply (IH m Hnodup' Hrest key sub attr).
      rewrite (Htruthy k1 s1 attr1 (or_introl eq_refl) E1).
      now apply (IH _ Hnodup' Hrest key sub attr).
  - intros key Hnot. now apply reviveRelationsFrom_other.
  - apply reviveRelationsFrom_attributes.
Qed.

Lemma reviveRelations_attaches_all_witness :
  objGet "comments"
    (relations
       (reviveRelations Example.blog Example.Post
          (hydrate Example.Post (Example.postRecord 10 1))
          Example.authoredPost))
  = Some (revivedRelation Example.blog
            (Standard.hasMany "comments" "postId" "id")
            (VArr [VObj [("id", VNum 100)]; VObj [("id", VNum 101)]])).
Proof.
  assert (Hnodup : NoDup (map fst [("id", VNum 10);
                                   ("author", VObj [("id", VNum 1)]);
                                   ("comments",
                                    VArr [VObj [("id", VNum 100)];
                                          VObj [("id", VNum 101)]])])).
  { cbn. repeat constructor; cbn; intuition discriminate. }
  refine (proj1 (reviveRelations_attaches_all Example.blog Example.Post _
                   (hydrate Example.Post (Example.postRecord 10 1))
                   Hnodup _)
                "comments" _ _ _ eq_refl).
  - intros key sub attr [H | [H | [H | []]]] Hrel; injection H as <- <-;
      reflexivity.
  - right. right. left. reflexivity.
Defined.

(* ================================================================== *)
(** * Registering a relation twice *)
(* ================================================================== *)

Lemma objReplace_objReplace {A : Type} (k : string) (v1 v2 : A)
  (o : JsObj A) :
  objReplace k v2 (objReplace k v1 o) = objReplace k v2 o.
Proof.
  induction o as [|[k1 x1] o IH]; simpl; [reflexivity|].
  destruct (String.eqb k k1) eqn:E; simpl; rewrite E; [reflexivity|].
  now rewrite IH.
Qed.

Lemma objReplace_objInsertIndex {A : Type} (n : N) (k : string) (v1 v2 : A)
  (o : JsObj A) :
  objGet k o = None ->
  objReplace k v2 (objInsertIndex n k v1 o) = objInsertIndex n k v2 o.
Proof.
  induction o as [|[k1 x1] o IH]; simpl.
  - now rewrite String.eqb_refl.
  - destruct (String.eqb k k1) eqn:E; [discriminate|]. intros Hnone.
    destruct (arrayIndex k1) as [n1|]; [destruct (n1 <? n)%N|]; simpl;
      rewrite ?E, ?String.eqb_refl; try reflexivity.
    now rewrite IH.
Qed.

Lemma objReplace_app_new {A : Type} (k : string) (v1 v2 : A) (o : JsObj A) :
  objGet k o = None ->
  objReplace k v2 (o ++ [(k, v1)]) = o ++ [(k, v2)].
Proof.
  induction o as [|[k1 x1] o IH]; simpl.
  - now rewrite String.eqb_refl.
  - destruct (String.eqb k k1) eqn:E; [discriminate|]. intros Hnone.
    now rewrite IH.
Qed.

(** Assigning a property twice is assigning the second value. *)
Lemma objSet_objSet_same {A : Type} (k : string) (v1 v2 : A) (o : JsObj A) :
  objSet k v2 (objSet k v1 o) = objSet k v2 o.
Proof.
  unfold objSet at 1.
  assert (Hhas : objHas k (objSet k v1 o) = true)
    by (unfold objHas; now rewrite objGet_objSet_same).
  rewrite Hhas. unfold objSet.
  destruct (objHas k o) eqn:Ho.
  - apply objReplace_objReplace.
  - assert (Hnone : objGet k o = None)
      by (unfold objHas in Ho; destruct (objGet k o); congruence).
    destruct (arrayIndex k).
    + now apply objReplace_objInsertIndex.
    + now apply objReplace_app_new.
Qed.

(** X14. Registering a relation name again replaces its constraint: the last
    registration wins, the name keeps its place in the eager-load map
    and the other names keep their constraints. *)
Theorem with_overwrites (q : Query) (name : string) (c1 c2 : Constraint) :
  with_ (with_ q name c1) name c2 = with_ q name c2
  /\ objGet name (eagerLoad (with_ q name c1)) = Some c1
  /\ (forall other,
        other <> name ->
        objGet other (eagerLoad (with_ (with_ q name c1) name c2)) =
        objGet other (eagerLoad q))
  /\ objKeys (eagerLoad (with_ (with_ q name c1) name c2)) =
     objKeys (eagerLoad (with_ q name c1)).
Proof.
  assert (Hsame : with_ (with_ q name c1) name c2 = with_ q name c2).
  { unfold with_. cbn [model wheres orders take skip eagerLoad].
    now rewrite objSet_objSet_same. }
  split; [exact Hsame|]. split; [|split].
  - cbn [with_ eagerLoad]. apply objGet_objSet_same.
  - intros other Hne. rewrite Hsame. cbn [with_ eagerLoad].
    now apply objGet_objSet_other.
  - cbn [with_ eagerLoad]. rewrite !objKeys_objSet.
    apply setKey_old. rewrite existsb_setKey, String.eqb_refl. reflexivity.
Qed.

(* ================================================================== *)
(** * Compiling and inserting *)
(* ================================================================== *)

Lemma find_app_last {A : Type} (p : A -> bool) (xs : list A) (x : A) :
  List.find p (xs ++ [x]) =
  match List.find p xs with
  | Some y => Some y
  | None => if p x then Some x else None
  end.
Proof.
  induction xs as [|y xs IH]; simpl; [reflexivity|].
  now destruct (p y).
Qed.

(** The entries of a compiled collection, over any object compiled
    before. *)
Lemma objGet_compile_from (q : Query) (models : Collection) (acc : Elements)
  (id : string) :
  objGet id
    (fold_left
       (fun records m =>
          objSet (getIndexId (model q) (attributes m)) (getAttributes m)
                 records)
       models acc) =
  match lastWithIndexId q id models with
  | Some m => Some (attributes m)
  | None => objGet id acc
  end.
Proof.
  unfold lastWithIndexId.
  revert acc. induction models as [|m models IH]; intros acc;
    cbn [fold_left rev]; [reflexivity|].
  rewrite IH, find_app_last.
  destruct (List.find _ (rev models)); [reflexivity|].
  rewrite objGet_objSet.
  now destruct (String.eqb id (getIndexId (model q) (attributes m))).
Qed.

(** X15. [compile] keys the attributes of the models by their index ids: an
    index id has an entry exactly when a model of the collection has
    it, and of several models with one index id the last is kept. *)
Theorem compile_last_wins (q : Query) (models : Collection) (id : string) :
  objGet id (compile q models) =
  option_map attributes (lastWithIndexId q id models)
  /\ (objGet id (compile q models) = None <->
      forall m, In m models -> getIndexId (model q) (attributes m) <> id)
  /\ (forall m,
        In m models ->
        objGet (getIndexId (model q) (attributes m)) (compile q models)
        <> None).
Proof.
  assert (Hget : forall id',
             objGet id' (compile q models) =
             option_map attributes (lastWithIndexId q id' models)).
  { intros id'. unfold compile. rewrite objGet_compile_from.
    now destruct (lastWithIndexId q id' models). }
  assert (Hnone : forall id',
             lastWithIndexId q id' models = None <->
             forall m, In m models ->
                       getIndexId (model q) (attributes m) <> id').
  { intros id'. unfold lastWithIndexId. split.
    - intros Hf m Hin Heq.
      apply in_rev in Hin.
      pose proof (find_none _ _ Hf m Hin) as Hfalse. cbn beta in Hfalse.
      subst id'. now rewrite String.eqb_refl in Hfalse.
    - intros Hall.
      destruct (List.find _ (rev models)) as [m|] eqn:E; [|reflexivity].
      apply find_some in E. destruct E as [Hin Heq].
      apply in_rev in Hin. apply String.eqb_eq in Heq.
      exfalso. apply (Hall m Hin). now symmetry. }
  split; [apply Hget|]. split.
  - rewrite Hget, <- Hnone.
    destruct (lastWithIndexId q id models); cbn; split; congruence.
  - intros m Hin. rewrite Hget.
    destruct (lastWithIndexId q _ models) eqn:E; cbn; [discriminate|].
    exfalso. apply (proj1 (Hnone _) E m Hin). reflexivity.
Qed.

(** X16. After [insert], the store holds under an index id the attributes of
    the last inserted model with that index id, and what it held before
    under the other ids; the models returned are the hydrated records.
    A single record is therefore found under its own index id, and so
    is the model of default values that [new] creates. *)
Theorem insert_stores_models (db : Database) (q : Query) (records : Value)
  (id : string) :
  let models :=
    match records with
    | VArr items => map (fun r => hydrate (model q) (propsOf r)) items
    | _ => [hydrate (model q) (propsOf records)]
    end in
  connFind (fst (insert db q records)) (model q) id =
  match lastWithIndexId q id models with
  | Some m => Some (attributes m)
  | None => connFind db (model q) id
  end
  /\ (isArray records = false ->
      snd (insert db q records) =
      AnItem (Some (hydrate (model q) (propsOf records)))
      /\ connFind (fst (insert db q records)) (model q)
           (getIndexId (model q) (newInstance (model q) (propsOf records)))
         = Some (newInstance (model q) (propsOf records)))
  /\ connFind (fst (new_ db q)) (model q)
       (getIndexId (model q) (newInstance (model q) []))
     = Some (newInstance (model q) []).
Proof.
  intros models.
  assert (Hfind : forall ms id',
             connFind (connInsert db (model q) (compile q ms)) (model q) id' =
             match lastWithIndexId q id' ms with
             | Some m => Some (attributes m)
             | None => connFind db (model q) id'
             end).
  { intros ms id'. unfold connFind, connInsert.
    rewrite connGet_connCommit, objGet_spread.
    unfold compile. rewrite objGet_compile_from.
    now destruct (lastWithIndexId q id' ms). }
  assert (Hone : forall record,
             connFind (connInsert db (model q)
                         (compile q [hydrate (model q) record]))
                      (model q)
                      (getIndexId (model q) (newInstance (model q) record))
             = Some (newInstance (model q) record)).
  { intros record. rewrite Hfind. unfold lastWithIndexId.
    cbn [rev app List.find hydrate attributes].
    now rewrite String.eqb_refl. }
  split; [|split].
  - unfold insert. subst models.
    destruct records; cbn [fst]; apply Hfind.
  - intros Harr. unfold insert.
    destruct records; try discriminate Harr; cbn [fst snd propsOf];
      (split; [reflexivity | apply Hone]).
  - unfold new_. cbn [fst]. apply Hone.
Qed.

(* ================================================================== *)
(** * Updating, deleting and flushing *)
(* ================================================================== *)

Section WritingFacts.

Variable orderBy :
  Collection -> list OrderBy -> list OrderDirection -> Collection.
Variable getEager : Database -> Relation -> Query -> Result Collection.

Lemma get_of_empty_selection (db : Database) (q : Query) :
  select orderBy db q = [] -> get orderBy getEager db q = Ok [].
Proof. intros H. unfold get. now rewrite H. Qed.

(** X17. When the chain selects nothing, [update] and [delete] return the
    empty collection and do not write to the store, whatever the
    eager-load map names; when [get] raises, [update], [delete] and
    [flush] raise the same error and do not write to the store. *)
Theorem update_delete_without_match (db : Database) (q : Query)
  (record : Element) :
  (select orderBy db q = [] ->
   update orderBy getEager db q record = (db, Ok [])
   /\ delete_ orderBy getEager db q = (db, Ok []))
  /\ (forall message,
        get orderBy getEager db q = Throw message ->
        update orderBy getEager db q record = (db, Throw message)
        /\ delete_ orderBy getEager db q = (db, Throw message)
        /\ flush orderBy getEager db q = (db, Throw message)).
Proof.
  split.
  - intros Hsel. unfold update, delete_.
    rewrite (get_of_empty_selection db q Hsel). split; reflexivity.
  - intros message Hget. unfold update, delete_, flush. rewrite Hget.
    repeat split.
Qed.

(** X18. [flush] returns the models that the chain matched before the
    removal and empties the records of the entity, also when the chain
    matched nothing: afterwards [all()] is empty for every query on the
    model. *)
Theorem flush_returns_then_empties (db : Database) (q : Query)
  (models : Collection) :
  get orderBy getEager db q = Ok models ->
  snd (flush orderBy getEager db q) = Ok models
  /\ fst (flush orderBy getEager db q) = connFlush db (model q)
  /\ (forall q',
        model q' = model q ->
        all (fst (flush orderBy getEager db q)) q' = []).
Proof.
  intros Hget. unfold flush. rewrite Hget. cbn [fst snd].
  split; [reflexivity|]. split; [reflexivity|].
  intros q' Hm. unfold all, connFlush. rewrite Hm, connGet_connCommit.
  reflexivity.
Qed.

End WritingFacts.

Lemma update_delete_without_match_witness :
  update Standard.orderBy (Standard.getEager 3) Example.twoUsers
         (with_ (whereId (newQueryOf Example.User) (VNum 999)) "bogus"
                NoConstraint)
         [("name", VStr "renamed")]
  = (Example.twoUsers, Ok []).
Proof.
  apply (update_delete_without_match Standard.orderBy (Standard.getEager 3)
           Example.twoUsers
           (with_ (whereId (newQueryOf Example.User) (VNum 999)) "bogus"
                  NoConstraint)
           [("name", VStr "renamed")]).
  vm_compute. reflexivity.
Defined.

Lemma flush_returns_then_empties_witness :
  all (fst (flush Standard.orderBy (Standard.getEager 3) Example.twoUsers
                  (whereId (newQueryOf Example.User) (VNum 1))))
      (newQueryOf Example.User)
  = [].
Proof.
  refine (proj2 (proj2
            (flush_returns_then_empties Standard.orderBy
               (Standard.getEager 3) Example.twoUsers
               (whereId (newQueryOf Example.User) (VNum 1))
               [mkModel [("id", VNum 1); ("name", VStr "user1")] []] _))
            (newQueryOf Example.User) eq_refl).
  vm_compute. reflexivity.
Defined.

(* ================================================================== *)
(** * Saving and reviving *)
(* ================================================================== *)

Lemma saveElements_model (db : Database) (q q' : Query) (elements : Elements) :
  model q' = model q ->
  saveElements db q' elements = saveElements db q elements.
Proof. intros Hm. unfold saveElements, data. now rewrite Hm. Qed.

(** The record that [saveElements] leaves under an id of the incoming
    elements. *)
Lemma connFind_saveElements (db : Database) (q : Query) (elements : Elements)
  (id : string) (record : Element) :
  objGet id elements = Some record ->
  connFind (saveElements db q elements) (model q) id =
  Some (newInstance (model q)
          match connFind db (model q) id with
          | Some existing => spread existing record
          | None => record
          end).
Proof.
  intros Hrec.
  destruct (saveElements_newData db q elements) as [newData [Hsave Hnew]].
  rewrite Hsave. unfold connFind, connSave.
  rewrite connGet_connCommit, objGet_spread, Hnew, Hrec.
  unfold data. now destruct (objGet id (connGet db (model q))).
Qed.

Section SavingFacts.

Variable process : Database -> ModelType -> Value -> Value * JsObj Elements.

(** X19. [save] of input that the interpreter normalizes to one element of
    the model's own entity: the element is written by [saveElements]
    and the model returned is revived from the store, so that its
    attributes are the hydration of the record that was persisted: the
    merge of the existing record with the element when the id was in
    the store, the element otherwise. *)
Theorem save_returns_persisted (db : Database) (q : Query) (records : Value)
  (schema : Value) (name id : string) (elements : Elements)
  (record : Element) :
  process db (model q) records = (schema, [(name, elements)]) ->
  getModel db name = model q ->
  isArray schema = false ->
  objGet id elements = Some record ->
  getIndexId (model q) (propsOf schema) = id ->
  fst (save process db q records) = saveElements db q elements
  /\ exists m,
      snd (save process db q records) = AnItem (Some m)
      /\ attributes m =
         newInstance (model q)
           (newInstance (model q)
              match connFind db (model q) id with
              | Some existing => spread existing record
              | None => record
              end).
Proof.
  intros Hproc Hname Harr Hrec Hid.
  unfold save. rewrite Hproc.
  unfold forIn. cbn [objKeys map fst fold_left objGet].
  rewrite String.eqb_refl.
  assert (Hsave : saveElements db (newQuery db name) elements =
                  saveElements db q elements).
  { apply saveElements_model. unfold newQuery. cbn [model newQueryOf].
    exact Hname. }
  rewrite Hsave. cbn [fst snd]. split; [reflexivity|].
  unfold revive.
  assert (Hone : exists m,
             reviveOne (saveElements db q elements) (model q) schema = Some m
             /\ attributes m =
                newInstance (model q)
                  (newInstance (model q)
                     match connFind db (model q) id with
                     | Some existing => spread existing record
                     | None => record
                     end)).
  { rewrite reviveOne_unfold, Hid.
    rewrite (connFind_saveElements db q elements id record Hrec).
    eexists. split; [reflexivity|].
    unfold reviveRelations. rewrite reviveRelationsFrom_attributes.
    reflexivity. }
  destruct Hone as [m [Hrev Hattrs]].
  exists m. split; [|exact Hattrs].
  destruct schema; try (now rewrite Hrev). discriminate Harr.
Qed.

End SavingFacts.

Lemma save_returns_persisted_witness :
  exists m,
    snd (save Standard.processFlat Example.things (newQueryOf Example.Thing)
              (VObj [("id", VNum 1); ("b", VNum 3)]))
    = AnItem (Some m)
    /\ attributes m = [("id", VNum 1); ("a", VNum 1); ("b", VNum 3)].
Proof.
  destruct (save_returns_persisted Standard.processFlat Example.things
              (newQueryOf Example.Thing)
              (VObj [("id", VNum 1); ("b", VNum 3)])
              (VObj [("id", VNum 1); ("b", VNum 3)])
              "things" "1"
              [("1", [("id", VNum 1); ("b", VNum 3)])]
              [("id", VNum 1); ("b", VNum 3)]
              eq_refl eq_refl eq_refl eq_refl eq_refl)
    as [_ [m [Hsave Hattrs]]].
  exists m. split; [exact Hsave|]. rewrite Hattrs. reflexivity.
Defined.

(* ================================================================== *)
(** * All models *)
(* ================================================================== *)

Lemma objGet_of_entry {A : Type} (o : JsObj A) (k : string) (v : A) :
  NoDup (objKeys o) -> In (k, v) o -> objGet k o = Some v.
Proof.
  induction o as [|[k1 v1] o IH]; intros Hnodup Hin; [destruct Hin|].
  cbn [objKeys map fst] in Hnodup.
  inversion Hnodup as [|? ? Hnotin Hnodup']; subst.
  cbn [objGet]. destruct Hin as [Heq | Hin].
  - injection Heq as -> ->. now rewrite String.eqb_refl.
  - destruct (String.eqb k k1) eqn:E.
    + apply String.eqb_eq in E; subst k1. exfalso. apply Hnotin.
      change k with (fst (k, v)). now apply in_map.
    + now apply IH.
Qed.

Lemma forIn_push {A B : Type} (o : JsObj A) (g : A -> B) (init : list B) :
  NoDup (objKeys o) ->
  forIn o (fun _ v acc => acc ++ [g v]) init =
  init ++ map (fun kv => g (snd kv)) o.
Proof.
  intros Hnodup. unfold forIn.
  assert (Hgen : forall entries acc,
             (forall k v, In (k, v) entries -> objGet k o = Some v) ->
             fold_left
               (fun s k =>
                  match objGet k o with
                  | Some v => s ++ [g v]
                  | None => s
                  end)
               (objKeys entries) acc =
             acc ++ map (fun kv => g (snd kv)) entries).
  { induction entries as [|[k v] entries IH]; intros acc Hall;
      cbn [objKeys map fst snd fold_left].
    - now rewrite app_nil_r.
    - rewrite (Hall k v (or_introl eq_refl)).
      unfold objKeys in IH. rewrite IH.
      + now rewrite <- app_assoc.
      + intros k' v' Hin. apply Hall. now right. }
  apply Hgen. intros k v Hin. now apply objGet_of_entry.
Qed.

(** X20. [all()] returns one model for every record of the entity, in the
    enumeration order of the store, each hydrated from its record and
    without relation attributes; the directives of the query play no
    part. *)
Theorem all_hydrates_every_record (db : Database) (q : Query) :
  NoDup (objKeys (connGet db (model q))) ->
  all db q =
  map (fun entry => mkModel (newInstance (model q) (snd entry)) [])
      (connGet db (model q))
  /\ length (all db q) = length (connGet db (model q))
  /\ all db q = all db (newQueryOf (model q)).
Proof.
  intros Hnodup.
  assert (Hall : all db q =
                 map (fun entry => mkModel (newInstance (model q) (snd entry)) [])
                     (connGet db (model q))).
  { unfold all.
    rewrite (forIn_push (connGet db (model q)) (hydrate (model q)) []
                        Hnodup).
    reflexivity. }
  split; [exact Hall|]. split; [|reflexivity].
  rewrite Hall. apply length_map.
Qed.

Lemma all_hydrates_every_record_witness :
  length (all Example.tenUsers pagedQuery) =
  length (connGet Example.tenUsers Example.User).
Proof.
  apply (all_hydrates_every_record Example.tenUsers pagedQuery).
  vm_compute. repeat constructor; cbn; intuition discriminate.
Defined.
